(** * Prediction engine of the benchmark modelling service

    A shallow embedding of [ModelingService] (the class that starts with
    [predictPerformance] in [backend/src]) and the properties its
    specification states about it.

    Modelling decisions, all of them visible in the definitions below:

    - A finite JavaScript number is an exact rational ([Q]).  Rounding error
      and overflow of IEEE doubles are not modelled.  Every division the
      fitters perform is guarded by the source ([n] is a positive length,
      [Math.abs(denom) > 1e-10], [varX1 > 0], ...), so on finite inputs the
      fitters only ever produce finite numbers and are written directly on
      [Q].
    - The [predictions] object is a JS object filled key by key and read back
      by [calculateE2EMeanMechanistically] through guards that distinguish
      missing, [NaN] and infinite entries.  It is a [gmap string JS.num],
      where [JS.num] adds the three non-finite numbers to [Q] and a missing
      key is [undefined].
    - A row returned by the SQL query is a record: [input_avg_len] and
      [output_avg_len] are [NOT NULL] columns, [traffic_level] and the 25
      statistic columns may be [NULL] ([None]).
    - The SQL query itself is outside the model: [predictPerformance] takes
      the list of aggregated rows the query returned.
    - The token counts and the traffic level of a request are finite
      numbers.
    - [Math.sqrt] only occurs in [calculateConfidence], where its result is
      fed to [Math.min] and compared with a positive constant; a distance is
      kept as its radicand (see [JS.dist]). *)

From Stdlib Require Import QArith Qminmax Qabs Qround Lqa.
From stdpp Require Import gmap strings list.

Local Open Scope Q_scope.

(** Comparisons of rationals are decidable; the conditions of the source
    are written with [decide]. *)
#[global] Instance Qlt_decision (x y : Q) : Decision (x < y).
Proof.
  destruct (Qlt_le_dec x y) as [H | H]; [left | right]; [exact H |].
  apply Qle_not_lt, H.
Defined.

#[global] Instance Qle_decision (x y : Q) : Decision (x <= y).
Proof.
  destruct (Qlt_le_dec y x) as [H | H]; [right | left]; [| exact H].
  apply Qlt_not_le, H.
Defined.

(** ** JavaScript numbers *)

Module JS.

(** A JS number without rounding: a rational, or one of the three
    non-finite values. *)
Inductive num : Type :=
| Fin (q : Q)
| PInf
| NInf
| NaN.

(** [isFinite(x)] *)
Definition isFinite (x : num) : bool :=
  match x with Fin _ => true | _ => false end.

(** Reading a property that may be missing and using it as a number:
    [undefined] converts to [NaN]. *)
Definition toNumber (v : option num) : num := default NaN v.

(** Truthiness of a number or [undefined]: [0], [NaN] and [undefined] are
    falsy. *)
Definition truthy (v : option num) : bool :=
  match v with
  | Some (Fin q) => negb (Qeq_bool q 0)
  | Some PInf | Some NInf => true
  | Some NaN | None => false
  end.

Definition flip_inf (x : num) : num :=
  match x with PInf => NInf | NInf => PInf | _ => x end.

(** An infinity scaled by a finite factor. *)
Definition scale_inf (inf : num) (q : Q) : num :=
  match q ?= 0 with
  | Gt => inf
  | Lt => flip_inf inf
  | Eq => NaN
  end.

Definition add (x y : num) : num :=
  match x, y with
  | NaN, _ | _, NaN => NaN
  | Fin a, Fin b => Fin (a + b)
  | PInf, NInf | NInf, PInf => NaN
  | PInf, _ | _, PInf => PInf
  | NInf, _ | _, NInf => NInf
  end.

Definition mul (x y : num) : num :=
  match x, y with
  | NaN, _ | _, NaN => NaN
  | Fin a, Fin b => Fin (a * b)
  | Fin a, inf => scale_inf inf a
  | inf, Fin b => scale_inf inf b
  | PInf, PInf | NInf, NInf => PInf
  | PInf, NInf | NInf, PInf => NInf
  end.

(** Division; a zero divisor is taken as [+0]. *)
Definition div (x y : num) : num :=
  match x, y with
  | NaN, _ | _, NaN => NaN
  | Fin a, Fin b =>
      if Qeq_bool b 0 then scale_inf PInf a else Fin (a / b)
  | Fin _, _ => Fin 0
  | inf, Fin b => if Qle_bool 0 b then inf else flip_inf inf
  | _, _ => NaN
  end.

(** [x <= y] *)
Definition leb (x y : num) : bool :=
  match x, y with
  | NaN, _ | _, NaN => false
  | Fin a, Fin b => Qle_bool a b
  | NInf, _ | _, PInf => true
  | _, _ => false
  end.

(** [x < y] *)
Definition ltb (x y : num) : bool :=
  match x, y with
  | NaN, _ | _, NaN => false
  | Fin a, Fin b => negb (Qle_bool b a)
  | PInf, _ | _, NInf => false
  | _, _ => true
  end.

(** [v || d] for a column value [v] that is a finite number or [NULL]:
    [NULL] and [0] are falsy. *)
Definition or_else (v : option Q) (d : Q) : Q :=
  match v with
  | Some q => if Qeq_bool q 0 then d else q
  | None => d
  end.

(** [Math.round(x)]: the nearest integer, halves rounded up. *)
Definition round (x : Q) : Z := Qfloor (x + (1 # 2)).

(** The result of [Math.sqrt] on a non-negative rational, kept as its
    radicand; [Infinity] is the initial value of a running minimum. *)
Inductive dist : Type :=
| Sqrt (radicand : Q)
| Infinity.

(** [Math.min] on distances: the square root is monotone. *)
Definition dist_min (d1 d2 : dist) : dist :=
  match d1, d2 with
  | Infinity, d | d, Infinity => d
  | Sqrt a, Sqrt b => Sqrt (Qmin a b)
  end.

(** [d < c] for a constant [c >= 0]: [sqrt a < c] iff [a < c * c]. *)
Definition dist_ltb (d : dist) (c : Q) : bool :=
  match d with
  | Sqrt a => negb (Qle_bool (c * c) a)
  | Infinity => false
  end.

End JS.

Import JS.

(** ** Data model *)

(** One aggregated row of the [benchmarks] table, as the query of
    [predictPerformance] returns it.  [stats] holds the 25 statistic columns
    by name; a [NULL] column is a missing key. *)
Record BenchmarkRow : Type := {
  input_avg_len : Q;
  output_avg_len : Q;
  traffic_level : option Q;
  stats : gmap string Q;
}.

Inductive PredictionMethod : Type :=
| auto_detect
| polynomial
| linear
| average.

#[global] Instance PredictionMethod_eq_dec : EqDecision PredictionMethod.
Proof. solve_decision. Defined.

(** The fields of a request carry the prefix [req_]: the result has fields
    of the same names. *)
Record ModelingRequest : Type := {
  req_model : string;
  req_input_tokens : Q;
  req_output_tokens : Q;
  req_traffic_level : option Q;
  req_method : option PredictionMethod;
}.

Inductive Confidence : Type :=
| high
| medium
| low.

Record ModelingResult : Type := {
  model : string;
  input_tokens : Q;
  output_tokens : Q;
  predictions : gmap string num;
  confidence : Confidence;
  num_benchmarks_used : nat;
  interpolation_method : string;
}.

(** [point[targetMetric] || 0] *)
Definition metric_value (point : BenchmarkRow) (targetMetric : string) : Q :=
  or_else (stats point !! targetMetric) 0.

(** [array[i]] on numbers, read where the source reads inside the bounds or
    defaults with [|| 0]. *)
Definition at_index (l : list Q) (i : nat) : Q := default 0 (l !! i).

(** [data.length] as a number. *)
Definition length_Q {A} (l : list A) : Q := inject_Z (Z.of_nat (length l)).

(** ** Mechanistic end-to-end latency *)

Definition safeDivide (numerator : num) (denominator : option num)
    (fallback : num) : num :=
  if negb (truthy denominator)
     || leb (toNumber denominator) (Fin 0)
     || negb (isFinite (toNumber denominator))
  then fallback
  else
    let result := div numerator (toNumber denominator) in
    if isFinite result then result else fallback.

Definition calculateE2EMeanMechanistically (predictions : gmap string num)
    (outputTokens : Q) : gmap string num :=
  let genTimeMs :=
    mul (safeDivide (Fin outputTokens) (predictions !! "user_tps_mean")
           (mul (Fin outputTokens) (Fin 10)))
        (Fin 1000) in
  let predictions :=
    <["e2e_mean" := add (toNumber (predictions !! "ttft_mean")) genTimeMs]>
      predictions in
  if negb (isFinite (toNumber (predictions !! "e2e_mean")))
     || ltb (toNumber (predictions !! "e2e_mean")) (Fin 0)
  then
    <["e2e_mean" :=
        add (toNumber (predictions !! "ttft_mean"))
            (mul (Fin outputTokens) (Fin 10))]> predictions
  else predictions.

(** ** Curve fitters *)

Module Linear.
Record coeffs : Type := {
  intercept : Q;
  inputCoeff : Q;
  outputCoeff : Q;
}.
End Linear.

Module Linear3D.
Record coeffs : Type := {
  intercept : Q;
  x1Coeff : Q;
  x2Coeff : Q;
  x3Coeff : Q;
}.
End Linear3D.

Module Poly.
Record coeffs : Type := {
  intercept : Q;
  x1 : Q;
  x2 : Q;
  x1_sq : Q;
  x2_sq : Q;
  x1x2 : Q;
}.
End Poly.

Module Poly3D.
Record coeffs : Type := {
  intercept : Q;
  x1 : Q;
  x2 : Q;
  x3 : Q;
  x1_sq : Q;
  x2_sq : Q;
  x3_sq : Q;
  x1x2 : Q;
  x1x3 : Q;
  x2x3 : Q;
}.
End Poly3D.

(** *** Two-feature linear fit *)

(** The accumulators of the first loop of [fitLinearModel]. *)
Record Sums : Type := {
  sumX1 : Q;
  sumX2 : Q;
  sumY : Q;
  sumX1X1 : Q;
  sumX2X2 : Q;
  sumX1X2 : Q;
  sumX1Y : Q;
  sumX2Y : Q;
}.

(** The accumulators of its second loop. *)
Record Moments : Type := {
  varX1 : Q;
  varX2 : Q;
  covX1X2 : Q;
  covX1Y : Q;
  covX2Y : Q;
}.

Definition sums_step (targetMetric : string) (s : Sums) (point : BenchmarkRow)
    : Sums :=
  let x1 := input_avg_len point in
  let x2 := output_avg_len point in
  let y := metric_value point targetMetric in
  {| sumX1 := sumX1 s + x1;
     sumX2 := sumX2 s + x2;
     sumY := sumY s + y;
     sumX1X1 := sumX1X1 s + x1 * x1;
     sumX2X2 := sumX2X2 s + x2 * x2;
     sumX1X2 := sumX1X2 s + x1 * x2;
     sumX1Y := sumX1Y s + x1 * y;
     sumX2Y := sumX2Y s + x2 * y |}.

Definition moments_step (targetMetric : string) (meanX1 meanX2 meanY : Q)
    (m : Moments) (point : BenchmarkRow) : Moments :=
  let dx1 := input_avg_len point - meanX1 in
  let dx2 := output_avg_len point - meanX2 in
  let dy := metric_value point targetMetric - meanY in
  {| varX1 := varX1 m + dx1 * dx1;
     varX2 := varX2 m + dx2 * dx2;
     covX1X2 := covX1X2 m + dx1 * dx2;
     covX1Y := covX1Y m + dx1 * dy;
     covX2Y := covX2Y m + dx2 * dy |}.

Definition linear_sums (data : list BenchmarkRow) (targetMetric : string)
    : Sums :=
  foldl (sums_step targetMetric)
    {| sumX1 := 0; sumX2 := 0; sumY := 0; sumX1X1 := 0; sumX2X2 := 0;
       sumX1X2 := 0; sumX1Y := 0; sumX2Y := 0 |} data.

Definition linear_moments (data : list BenchmarkRow) (targetMetric : string)
    : Moments :=
  let n := length_Q data in
  let s := linear_sums data targetMetric in
  foldl (moments_step targetMetric (sumX1 s / n) (sumX2 s / n) (sumY s / n))
    {| varX1 := 0; varX2 := 0; covX1X2 := 0; covX1Y := 0; covX2Y := 0 |} data.

(** [varX1 * varX2 - covX1X2 * covX1X2] *)
Definition linear_denom (data : list BenchmarkRow) (targetMetric : string)
    : Q :=
  let m := linear_moments data targetMetric in
  varX1 m * varX2 m - covX1X2 m * covX1X2 m.

Definition fitLinearModel (data : list BenchmarkRow) (targetMetric : string)
    : Linear.coeffs :=
  let n := length_Q data in
  let s := linear_sums data targetMetric in
  let meanX1 := sumX1 s / n in
  let meanX2 := sumX2 s / n in
  let meanY := sumY s / n in
  let m := linear_moments data targetMetric in
  let denom := linear_denom data targetMetric in
  let '(inputCoeff, outputCoeff) :=
    if decide (1e-10 < Qabs denom) then
      ((covX1Y m * varX2 m - covX2Y m * covX1X2 m) / denom,
       (covX2Y m * varX1 m - covX1Y m * covX1X2 m) / denom)
    else
      (if decide (0 < varX1 m) then covX1Y m / varX1 m else 0,
       if decide (0 < varX2 m) then covX2Y m / varX2 m else 0) in
  let intercept := meanY - inputCoeff * meanX1 - outputCoeff * meanX2 in
  {| Linear.intercept := intercept;
     Linear.inputCoeff := inputCoeff;
     Linear.outputCoeff := outputCoeff |}.

(** *** Normal equations solved by Gauss-Seidel sweeps *)

(** [X[k][i]] *)
Definition entry (X : list (list Q)) (k i : nat) : Q :=
  at_index (default [] (X !! k)) i.

(** [XtX[i][j]], the sum over the rows [k] of [X[k][i] * X[k][j]]. *)
Definition XtX_entry (X : list (list Q)) (i j : nat) : Q :=
  foldl (λ acc k, acc + entry X k i * entry X k j) 0 (seq 0 (length X)).

(** [Xty[i]], the sum over the rows [k] of [X[k][i] * y[k]]. *)
Definition Xty_entry (X : list (list Q)) (y : list Q) (i : nat) : Q :=
  foldl (λ acc k, acc + entry X k i * at_index y k) 0 (seq 0 (length X)).

(** The update of coefficient [i] inside one sweep. *)
Definition gauss_seidel_update (XtX : list (list Q)) (Xty : list Q) (m : nat)
    (coeffs : list Q) (i : nat) : list Q :=
  let sum :=
    foldl (λ sum j,
             if decide (i ≠ j) then sum - entry XtX i j * at_index coeffs j
             else sum)
          (at_index Xty i) (seq 0 m) in
  if decide (1e-10 < Qabs (entry XtX i i))
  then <[i := sum / entry XtX i i]> coeffs
  else coeffs.

Definition solvePolynomial (X : list (list Q)) (y : list Q) : list Q :=
  let m := length (default [] (X !! 0%nat)) in
  let coeffs := replicate m 0 in
  let XtX := (λ i, (λ j, XtX_entry X i j) <$> seq 0 m) <$> seq 0 m in
  let Xty := (λ i, Xty_entry X y i) <$> seq 0 m in
  foldl (λ coeffs _, foldl (gauss_seidel_update XtX Xty m) coeffs (seq 0 m))
        coeffs (seq 0 100).

(** *** Design matrices *)

(** [point.traffic_level || 0.5] *)
Definition traffic_feature (point : BenchmarkRow) : Q :=
  or_else (traffic_level point) 0.5.

Definition poly_row (point : BenchmarkRow) : list Q :=
  let x1 := input_avg_len point in
  let x2 := output_avg_len point in
  [1; x1; x2; x1 * x1; x2 * x2; x1 * x2].

Definition poly3D_row (point : BenchmarkRow) : list Q :=
  let x1 := input_avg_len point in
  let x2 := output_avg_len point in
  let x3 := traffic_feature point in
  [1; x1; x2; x3; x1 * x1; x2 * x2; x3 * x3; x1 * x2; x1 * x3; x2 * x3].

Definition linear3D_row (point : BenchmarkRow) : list Q :=
  let x1 := input_avg_len point in
  let x2 := output_avg_len point in
  let x3 := traffic_feature point in
  [1; x1; x2; x3].

Definition fitPolynomialModel (data : list BenchmarkRow)
    (targetMetric : string) : Poly.coeffs :=
  let X := poly_row <$> data in
  let y := (λ point, metric_value point targetMetric) <$> data in
  let coeffs := solvePolynomial X y in
  {| Poly.intercept := at_index coeffs 0;
     Poly.x1 := at_index coeffs 1;
     Poly.x2 := at_index coeffs 2;
     Poly.x1_sq := at_index coeffs 3;
     Poly.x2_sq := at_index coeffs 4;
     Poly.x1x2 := at_index coeffs 5 |}.

Definition fitPolynomialModel3D (data : list BenchmarkRow)
    (targetMetric : string) : Poly3D.coeffs :=
  let X := poly3D_row <$> data in
  let y := (λ point, metric_value point targetMetric) <$> data in
  let coeffs := solvePolynomial X y in
  {| Poly3D.intercept := at_index coeffs 0;
     Poly3D.x1 := at_index coeffs 1;
     Poly3D.x2 := at_index coeffs 2;
     Poly3D.x3 := at_index coeffs 3;
     Poly3D.x1_sq := at_index coeffs 4;
     Poly3D.x2_sq := at_index coeffs 5;
     Poly3D.x3_sq := at_index coeffs 6;
     Poly3D.x1x2 := at_index coeffs 7;
     Poly3D.x1x3 := at_index coeffs 8;
     Poly3D.x2x3 := at_index coeffs 9 |}.

Definition fitLinearModel3D (data : list BenchmarkRow)
    (targetMetric : string) : Linear3D.coeffs :=
  let X := linear3D_row <$> data in
  let y := (λ point, metric_value point targetMetric) <$> data in
  let coeffs := solvePolynomial X y in
  {| Linear3D.intercept := at_index coeffs 0;
     Linear3D.x1Coeff := at_index coeffs 1;
     Linear3D.x2Coeff := at_index coeffs 2;
     Linear3D.x3Coeff := at_index coeffs 3 |}.

(** ** Predictions *)

Definition ttftMetrics : list string :=
  ["ttft_mean"; "ttft_stdev"; "ttft_p05"; "ttft_p50"; "ttft_p80"; "ttft_p95";
   "ttft_p99"; "ttft_p999"].

Definition tpsMetrics : list string :=
  ["user_tps_mean"; "user_tps_stdev"; "user_tps_p05"; "user_tps_p50";
   "user_tps_p80"; "user_tps_p95"; "user_tps_p99"; "user_tps_p999"].

Definition e2eRegressionMetrics : list string :=
  ["e2e_stdev"; "e2e_p05"; "e2e_p50"; "e2e_p80"; "e2e_p95"; "e2e_p99";
   "e2e_p999"].

(** The [metrics] array of [performSimpleAveraging]: the 25 statistics of a
    result. *)
Definition metrics : list string :=
  ttftMetrics ++ tpsMetrics ++ "e2e_mean" :: e2eRegressionMetrics
  ++ ["throughput"].

(** [predictions[metric] = value] for each [metric] of a [for ... of] loop. *)
Definition assign_each (value : string → num) (names : list string)
    (predictions : gmap string num) : gmap string num :=
  foldl (λ predictions metric, <[metric := value metric]> predictions)
        predictions names.

Definition performSimpleAveraging (benchmarks : list BenchmarkRow)
    : gmap string num :=
  assign_each
    (λ metric,
       let values := (λ b, metric_value b metric) <$> benchmarks in
       Fin (foldl Qplus 0 values / length_Q values))
    metrics ∅.

(** The fitted surfaces evaluated at a target. *)
Definition eval_linear (c : Linear.coeffs) (targetInput targetOutput : Q) : Q :=
  Linear.intercept c
  + Linear.inputCoeff c * targetInput
  + Linear.outputCoeff c * targetOutput.

Definition eval_linear3D (c : Linear3D.coeffs)
    (targetInput targetOutput targetTraffic : Q) : Q :=
  Linear3D.intercept c
  + Linear3D.x1Coeff c * targetInput
  + Linear3D.x2Coeff c * targetOutput
  + Linear3D.x3Coeff c * targetTraffic.

Definition eval_poly (c : Poly.coeffs) (targetInput targetOutput : Q) : Q :=
  Poly.intercept c
  + Poly.x1 c * targetInput
  + Poly.x2 c * targetOutput
  + Poly.x1_sq c * targetInput * targetInput
  + Poly.x2_sq c * targetOutput * targetOutput
  + Poly.x1x2 c * targetInput * targetOutput.

Definition eval_poly3D (c : Poly3D.coeffs)
    (targetInput targetOutput targetTraffic : Q) : Q :=
  Poly3D.intercept c
  + Poly3D.x1 c * targetInput
  + Poly3D.x2 c * targetOutput
  + Poly3D.x3 c * targetTraffic
  + Poly3D.x1_sq c * targetInput * targetInput
  + Poly3D.x2_sq c * targetOutput * targetOutput
  + Poly3D.x3_sq c * targetTraffic * targetTraffic
  + Poly3D.x1x2 c * targetInput * targetOutput
  + Poly3D.x1x3 c * targetInput * targetTraffic
  + Poly3D.x2x3 c * targetOutput * targetTraffic.

(** The body shared by the four loops of [performPolynomialInterpolation]:
    the value assigned to [predictions[metric]]. *)
Definition polynomial_prediction (benchmarks : list BenchmarkRow)
    (targetInput targetOutput : Q) (targetTraffic : option Q)
    (metric : string) : num :=
  match targetTraffic with
  | Some traffic =>
      Fin (Qmax 0 (eval_poly3D (fitPolynomialModel3D benchmarks metric)
                     targetInput targetOutput traffic))
  | None =>
      Fin (Qmax 0 (eval_poly (fitPolynomialModel benchmarks metric)
                     targetInput targetOutput))
  end.

(** The same for [performMultivariateInterpolation]. *)
Definition linear_prediction (benchmarks : list BenchmarkRow)
    (targetInput targetOutput : Q) (targetTraffic : option Q)
    (metric : string) : num :=
  match targetTraffic with
  | Some traffic =>
      Fin (Qmax 0 (eval_linear3D (fitLinearModel3D benchmarks metric)
                     targetInput targetOutput traffic))
  | None =>
      Fin (Qmax 0 (eval_linear (fitLinearModel benchmarks metric)
                     targetInput targetOutput))
  end.

(** The common shape of the two interpolation routines: three loops over
    metric names, the throughput, then the mechanistic mean when no traffic
    level was given. *)
Definition interpolate (prediction : string → num) (targetOutput : Q)
    (targetTraffic : option Q) : gmap string num :=
  let use3D := bool_decide (is_Some targetTraffic) in
  let e2eMetricsToPredict :=
    if use3D then "e2e_mean" :: e2eRegressionMetrics
    else e2eRegressionMetrics in
  let predictions := ∅ in
  let predictions := assign_each prediction ttftMetrics predictions in
  let predictions := assign_each prediction tpsMetrics predictions in
  let predictions := assign_each prediction e2eMetricsToPredict predictions in
  let predictions := <["throughput" := prediction "throughput"]> predictions in
  if negb use3D
  then calculateE2EMeanMechanistically predictions targetOutput
  else predictions.

Definition performPolynomialInterpolation (benchmarks : list BenchmarkRow)
    (targetInput targetOutput : Q) (targetTraffic : option Q)
    : gmap string num :=
  interpolate
    (polynomial_prediction benchmarks targetInput targetOutput targetTraffic)
    targetOutput targetTraffic.

Definition performMultivariateInterpolation (benchmarks : list BenchmarkRow)
    (targetInput targetOutput : Q) (targetTraffic : option Q)
    : gmap string num :=
  interpolate
    (linear_prediction benchmarks targetInput targetOutput targetTraffic)
    targetOutput targetTraffic.

(** ** Confidence *)

(** [Math.max(...xs)] and [Math.min(...xs)] on a non-empty array (the scorer
    is only reached with at least one benchmark). *)
Definition max_of (xs : list Q) : Q :=
  match xs with
  | [] => 0
  | x :: xs => foldl Qmax x xs
  end.

Definition min_of (xs : list Q) : Q :=
  match xs with
  | [] => 0
  | x :: xs => foldl Qmin x xs
  end.

Definition inputRange (benchmarks : list BenchmarkRow) : Q :=
  max_of (input_avg_len <$> benchmarks) - min_of (input_avg_len <$> benchmarks).

Definition outputRange (benchmarks : list BenchmarkRow) : Q :=
  max_of (output_avg_len <$> benchmarks)
  - min_of (output_avg_len <$> benchmarks).

(** The normalized distance of one benchmark to the target. *)
Definition distance (benchmarks : list BenchmarkRow)
    (targetInput targetOutput : Q) (benchmark : BenchmarkRow) : dist :=
  let inputDist :=
    if decide (0 < inputRange benchmarks)
    then Qabs (input_avg_len benchmark - targetInput) / inputRange benchmarks
    else 0 in
  let outputDist :=
    if decide (0 < outputRange benchmarks)
    then Qabs (output_avg_len benchmark - targetOutput) / outputRange benchmarks
    else 0 in
  Sqrt (inputDist * inputDist + outputDist * outputDist).

Definition minDistance (benchmarks : list BenchmarkRow)
    (targetInput targetOutput : Q) : dist :=
  foldl (λ minDistance benchmark,
           dist_min minDistance
             (distance benchmarks targetInput targetOutput benchmark))
        Infinity benchmarks.

Definition isExtrapolating (benchmarks : list BenchmarkRow)
    (targetInput targetOutput : Q) : bool :=
  let minInput := min_of (input_avg_len <$> benchmarks) in
  let maxInput := max_of (input_avg_len <$> benchmarks) in
  let minOutput := min_of (output_avg_len <$> benchmarks) in
  let maxOutput := max_of (output_avg_len <$> benchmarks) in
  bool_decide (targetInput < minInput) || bool_decide (maxInput < targetInput)
  || bool_decide (targetOutput < minOutput)
  || bool_decide (maxOutput < targetOutput).

Definition calculateConfidence (benchmarks : list BenchmarkRow)
    (targetInput targetOutput : Q) : Confidence :=
  let minDistance := minDistance benchmarks targetInput targetOutput in
  let isExtrapolating := isExtrapolating benchmarks targetInput targetOutput in
  if dist_ltb minDistance 0.1 && negb isExtrapolating then high
  else if dist_ltb minDistance 0.3 || negb isExtrapolating then medium
  else low.

(** ** Linearity detection *)

(** The [type] argument of [calculateR2]. *)
Inductive FitType : Type :=
| fit_linear
| fit_polynomial.

Definition calculateR2 (data : list BenchmarkRow) (metric : string)
    (type : FitType) : Q :=
  let n := length data in
  if decide (n < 2)%nat then 0
  else
    let yActual := (λ d, metric_value d metric) <$> data in
    let yMean := foldl Qplus 0 yActual / length_Q data in
    let yPredicted :=
      match type with
      | fit_linear =>
          let coeffs := fitLinearModel data metric in
          (λ d, eval_linear coeffs (input_avg_len d) (output_avg_len d))
            <$> data
      | fit_polynomial =>
          let coeffs := fitPolynomialModel data metric in
          (λ d, eval_poly coeffs (input_avg_len d) (output_avg_len d))
            <$> data
      end in
    let ssRes :=
      foldl (λ sum iy, sum + (iy.2 - at_index yPredicted iy.1) ^ 2) 0
            (imap pair yActual) in
    let ssTot := foldl (λ sum y, sum + (y - yMean) ^ 2) 0 yActual in
    if Qeq_bool ssTot 0 then 0
    else Qmax 0 (1 - ssRes / ssTot).

Definition detectLinearity (benchmarks : list BenchmarkRow) : bool :=
  let linearR2 := calculateR2 benchmarks "ttft_mean" fit_linear in
  let polyR2 := calculateR2 benchmarks "ttft_mean" fit_polynomial in
  let improvement := polyR2 - linearR2 in
  bool_decide (improvement < 0.1) || bool_decide (0.85 < linearR2).

(** ** Method selection *)

Definition predictWithPolynomial (benchmarks : list BenchmarkRow)
    (request : ModelingRequest) : ModelingResult :=
  let predictions :=
    performPolynomialInterpolation benchmarks (req_input_tokens request)
      (req_output_tokens request) (req_traffic_level request) in
  let confidence :=
    calculateConfidence benchmarks (req_input_tokens request)
      (req_output_tokens request) in
  let confidence :=
    if decide (length benchmarks < 3)%nat then low else confidence in
  {| model := req_model request;
     input_tokens := req_input_tokens request;
     output_tokens := req_output_tokens request;
     predictions := predictions;
     confidence := confidence;
     num_benchmarks_used := length benchmarks;
     interpolation_method := "polynomial_regression" |}.

Definition predictWithLinear (benchmarks : list BenchmarkRow)
    (request : ModelingRequest) : ModelingResult :=
  let predictions :=
    performMultivariateInterpolation benchmarks (req_input_tokens request)
      (req_output_tokens request) (req_traffic_level request) in
  let confidence :=
    calculateConfidence benchmarks (req_input_tokens request)
      (req_output_tokens request) in
  {| model := req_model request;
     input_tokens := req_input_tokens request;
     output_tokens := req_output_tokens request;
     predictions := predictions;
     confidence := confidence;
     num_benchmarks_used := length benchmarks;
     interpolation_method := "multivariate_linear" |}.

Definition predictWithAverage (benchmarks : list BenchmarkRow)
    (request : ModelingRequest) : ModelingResult :=
  let predictions := performSimpleAveraging benchmarks in
  {| model := req_model request;
     input_tokens := req_input_tokens request;
     output_tokens := req_output_tokens request;
     predictions := predictions;
     confidence := low;
     num_benchmarks_used := length benchmarks;
     interpolation_method := "simple_average" |}.

(** [result.interpolation_method = name] *)
Definition set_interpolation_method (name : string) (result : ModelingResult)
    : ModelingResult :=
  {| model := model result;
     input_tokens := input_tokens result;
     output_tokens := output_tokens result;
     predictions := predictions result;
     confidence := confidence result;
     num_benchmarks_used := num_benchmarks_used result;
     interpolation_method := name |}.

(** [uniqueInputs.size >= 2 || uniqueOutputs.size >= 2] *)
Definition hasVariation (benchmarks : list BenchmarkRow) : bool :=
  let uniqueInputs : gset Z :=
    list_to_set ((λ b, round (input_avg_len b)) <$> benchmarks) in
  let uniqueOutputs : gset Z :=
    list_to_set ((λ b, round (output_avg_len b)) <$> benchmarks) in
  bool_decide (2 ≤ size uniqueInputs)%nat
  || bool_decide (2 ≤ size uniqueOutputs)%nat.

Definition predictAutoDetect (benchmarks : list BenchmarkRow)
    (request : ModelingRequest) : ModelingResult :=
  if bool_decide (length benchmarks = 1%nat) || negb (hasVariation benchmarks)
  then
    set_interpolation_method "auto_simple_average"
      (predictWithAverage benchmarks request)
  else if decide (length benchmarks < 3)%nat then
    set_interpolation_method "auto_linear"
      (predictWithLinear benchmarks request)
  else if detectLinearity benchmarks then
    set_interpolation_method "auto_linear"
      (predictWithLinear benchmarks request)
  else
    set_interpolation_method "auto_polynomial"
      (predictWithPolynomial benchmarks request).

(** The method the [switch] of [predictPerformance] dispatches on. *)
Definition effectiveMethod (benchmarks : list BenchmarkRow)
    (method : PredictionMethod) : PredictionMethod :=
  if bool_decide (length benchmarks = 1%nat) || negb (hasVariation benchmarks)
  then average
  else if bool_decide (length benchmarks < 3)%nat
          && bool_decide (method = polynomial)
  then linear
  else method.

(** [predictPerformance] on the rows its query returned; [None] is the
    [null] returned when there are none. *)
Definition predictPerformance (benchmarks : list BenchmarkRow)
    (request : ModelingRequest) : option ModelingResult :=
  if decide (length benchmarks = 0%nat) then None
  else
    let method := default auto_detect (req_method request) in
    Some
      match effectiveMethod benchmarks method with
      | auto_detect => predictAutoDetect benchmarks request
      | polynomial => predictWithPolynomial benchmarks request
      | linear => predictWithLinear benchmarks request
      | average => predictWithAverage benchmarks request
      end.

(** ** Vocabulary of the specification *)

(** A predicted rate the deriver cannot divide by: missing, not a finite
    number, or not positive. *)
Inductive unusable_rate : option num → Prop :=
| rate_absent : unusable_rate None
| rate_nan : unusable_rate (Some NaN)
| rate_pinf : unusable_rate (Some PInf)
| rate_ninf : unusable_rate (Some NInf)
| rate_nonpositive q : q <= 0 → unusable_rate (Some (Fin q)).

(** The two regression routines, selected by the kind of fit. *)
Definition interpolation_routine (type : FitType)
    : list BenchmarkRow → Q → Q → option Q → gmap string num :=
  match type with
  | fit_linear => performMultivariateInterpolation
  | fit_polynomial => performPolynomialInterpolation
  end.

(** The value each loop of that routine assigns to a statistic. *)
Definition regressed_value (type : FitType)
    : list BenchmarkRow → Q → Q → option Q → string → num :=
  match type with
  | fit_linear => linear_prediction
  | fit_polynomial => polynomial_prediction
  end.

(** A row built from its columns. *)
Definition row (input output : Q) (traffic : option Q)
    (columns : list (string * Q)) : BenchmarkRow :=
  {| input_avg_len := input;
     output_avg_len := output;
     traffic_level := traffic;
     stats := list_to_map columns |}.

(** A request built from its fields. *)
Definition request (input output : Q) (traffic : option Q)
    (method : option PredictionMethod) : ModelingRequest :=
  {| req_model := "model";
     req_input_tokens := input;
     req_output_tokens := output;
     req_traffic_level := traffic;
     req_method := method |}.

(** The sum of a list of numbers, and the arithmetic mean as the
    specification words it: the sum divided by the count. *)
Fixpoint sum_of (xs : list Q) : Q :=
  match xs with
  | [] => 0
  | x :: xs => x + sum_of xs
  end.

Definition arithmetic_mean (xs : list Q) : Q := sum_of xs / length_Q xs.

(** A statistic column of every benchmark, a missing value read as 0. *)
Definition column (benchmarks : list BenchmarkRow) (metric : string)
    : list Q :=
  (λ b, default 0 (stats b !! metric)) <$> benchmarks.



(** The names a result can carry for each strategy. *)
Definition is_polynomial_method (name : string) : Prop :=
  name = "polynomial_regression" ∨ name = "auto_polynomial".

Definition is_average_method (name : string) : Prop :=
  name = "simple_average" ∨ name = "auto_simple_average".

(** The rounded input and output token values show no variation across the
    set. *)
Definition rounded_tokens_constant (benchmarks : list BenchmarkRow) : Prop :=
  ∀ b1 b2, b1 ∈ benchmarks → b2 ∈ benchmarks →
    round (input_avg_len b1) = round (input_avg_len b2)
    ∧ round (output_avg_len b1) = round (output_avg_len b2).

(** What the specification requires of the method a result reports. *)
Definition respects_data_sufficiency (benchmarks : list BenchmarkRow)
    (result : ModelingResult) : Prop :=
  ((length benchmarks < 3)%nat →
   ¬ is_polynomial_method (interpolation_method result))
  ∧ ((length benchmarks < 2)%nat ∨ rounded_tokens_constant benchmarks →
     is_average_method (interpolation_method result)).

(** A distance is at least [c] (for [c >= 0]). *)
Definition dist_at_least (d : dist) (c : Q) : Prop :=
  match d with
  | Sqrt a => c * c <= a
  | Infinity => True
  end.

(** The target lies outside the observed min/max envelope: below every
    observed input, above every observed input, or the same for outputs. *)
Definition outside_envelope (benchmarks : list BenchmarkRow)
    (targetInput targetOutput : Q) : Prop :=
  (∀ b, b ∈ benchmarks → targetInput < input_avg_len b)
  ∨ (∀ b, b ∈ benchmarks → input_avg_len b < targetInput)
  ∨ (∀ b, b ∈ benchmarks → targetOutput < output_avg_len b)
  ∨ (∀ b, b ∈ benchmarks → output_avg_len b < targetOutput).

(** A traffic level that is exactly 0, or absent. *)
Definition zero_or_absent (traffic : option Q) : Prop :=
  match traffic with
  | Some q => q == 0
  | None => True
  end.

(** Two rows that agree on everything but a traffic level that is 0 in one
    and absent (or 0) in the other. *)
Definition same_but_zero_traffic (b b' : BenchmarkRow) : Prop :=
  input_avg_len b = input_avg_len b'
  ∧ output_avg_len b = output_avg_len b'
  ∧ stats b = stats b'
  ∧ (traffic_level b = traffic_level b'
     ∨ zero_or_absent (traffic_level b) ∧ zero_or_absent (traffic_level b')).



(** The five ways a result is produced, with what the selector has checked
    on each. *)
Inductive dispatched (benchmarks : list BenchmarkRow)
    (request : ModelingRequest) : ModelingResult → Prop :=
| dispatched_average :
    dispatched benchmarks request (predictWithAverage benchmarks request)
| dispatched_linear :
    hasVariation benchmarks = true → (2 ≤ length benchmarks)%nat →
    dispatched benchmarks request (predictWithLinear benchmarks request)
| dispatched_polynomial :
    hasVariation benchmarks = true → (3 ≤ length benchmarks)%nat →
    dispatched benchmarks request (predictWithPolynomial benchmarks request)
| dispatched_auto_linear :
    hasVariation benchmarks = true → (2 ≤ length benchmarks)%nat →
    dispatched benchmarks request
      (set_interpolation_method "auto_linear"
         (predictWithLinear benchmarks request))
| dispatched_auto_polynomial :
    hasVariation benchmarks = true → (3 ≤ length benchmarks)%nat →
    detectLinearity benchmarks = false →
    dispatched benchmarks request
      (set_interpolation_method "auto_polynomial"
         (predictWithPolynomial benchmarks request)).

(** The names [predictPerformance] can report for a requested method. *)
Definition names_for (method : PredictionMethod) : list string :=
  match method with
  | auto_detect => ["simple_average"; "auto_linear"; "auto_polynomial"]
  | polynomial =>
      ["simple_average"; "multivariate_linear"; "polynomial_regression"]
  | linear => ["simple_average"; "multivariate_linear"]
  | average => ["simple_average"]
  end.

(** Two benchmarks of the set differ in rounded input or rounded output
    tokens. *)
Definition rounded_tokens_vary (benchmarks : list BenchmarkRow) : Prop :=
  ∃ b1 b2, b1 ∈ benchmarks ∧ b2 ∈ benchmarks
    ∧ (round (input_avg_len b1) ≠ round (input_avg_len b2)
       ∨ round (output_avg_len b1) ≠ round (output_avg_len b2)).

(** The target lies inside the observed min/max envelope: between two
    observed inputs and between two observed outputs. *)
Definition inside_envelope (benchmarks : list BenchmarkRow)
    (targetInput targetOutput : Q) : Prop :=
  (∃ b, b ∈ benchmarks ∧ input_avg_len b <= targetInput)
  ∧ (∃ b, b ∈ benchmarks ∧ targetInput <= input_avg_len b)
  ∧ (∃ b, b ∈ benchmarks ∧ output_avg_len b <= targetOutput)
  ∧ (∃ b, b ∈ benchmarks ∧ targetOutput <= output_avg_len b).



(** The points of a data set lie exactly on the plane
    [y = a + b * input + c * output] for a statistic. *)
Definition on_plane (a b c : Q) (data : list BenchmarkRow) (metric : string)
    : Prop :=
  ∀ p, p ∈ data →
    metric_value p metric
    == a + b * input_avg_len p + c * output_avg_len p.

(** The total sum of squares of a statistic around its mean, [ssTot] in
    [calculateR2]. *)
Definition total_sum_of_squares (data : list BenchmarkRow) (metric : string)
    : Q :=
  let yActual := (λ d, metric_value d metric) <$> data in
  let yMean := foldl Qplus 0 yActual / length_Q data in
  foldl (λ sum y, sum + (y - yMean) ^ 2) 0 yActual.

(** The request leaves the method to auto-detection. *)
Definition requests_auto_detect (request : ModelingRequest) : Prop :=
  default auto_detect (req_method request) = auto_detect.



(** Equality of rationals is decidable. *)
#[global] Instance Qeq_decision (x y : Q) : Decision (x == y) := Qeq_dec x y.

(** Every number of a list is 0. *)
Definition all_zero (l : list Q) : Prop := Forall (λ c, c == 0) l.

(** A statistic is 0 or missing in every row. *)
Definition zero_column (data : list BenchmarkRow) (metric : string) : Prop :=
  ∀ p, p ∈ data → metric_value p metric == 0.

(** Two rows that agree on what a 2-feature regression without traffic
    level reads: the token counts and every statistic but [e2e_mean]. *)
Definition same_for_two_features (b b' : BenchmarkRow) : Prop :=
  input_avg_len b = input_avg_len b'
  ∧ output_avg_len b = output_avg_len b'
  ∧ ∀ metric : string, metric ≠ "e2e_mean" →
      stats b !! metric = stats b' !! metric.

(** * Properties *)

(** ** Rationals and the JS operations on them *)

Section Rationals.


Lemma Qle_bool_false (a b : Q) : b < a → Qle_bool a b = false.
Proof.
  intros H. destruct (Qle_bool a b) eqn:E; [| done].
  apply Qle_bool_iff in E. lra.
Qed.

Lemma Qle_bool_true (a b : Q) : a <= b → Qle_bool a b = true.
Proof. apply Qle_bool_iff. Qed.


(** [v || 0] keeps the sign of a column and reads a missing one as 0. *)
Lemma or_else_0 (v : option Q) : or_else v 0 == default 0 v.
Proof.
  destruct v as [q |]; simpl; [| reflexivity].
  destruct (Qeq_bool q 0) eqn:E; [| reflexivity].
  apply Qeq_bool_iff in E. by rewrite E.
Qed.


End Rationals.

(** ** The predictions object *)

Section Predictions.

Implicit Types (predictions : gmap string num) (names : list string).

(** After a loop that assigns [value metric] to every name, a key reads
    the assigned value if it was among the names, and its old value
    otherwise. *)
Lemma lookup_assign_each value names predictions (k : string) :
  assign_each value names predictions !! k
  = if decide (k ∈ names) then Some (value k) else predictions !! k.
Proof.
  unfold assign_each. revert predictions.
  induction names as [| name names IH]; intros predictions.
  - case_decide as Hin; [by apply elem_of_nil in Hin | done].
  - cbn [foldl]. rewrite IH.
    destruct (decide (k ∈ names)) as [Hin | Hnin].
    + rewrite decide_True; [done | by right].
    + destruct (decide (k = name)) as [-> | Hne].
      * rewrite decide_True; [| by left]. by rewrite lookup_insert_eq.
      * rewrite decide_False by (by intros [? | ?]%elem_of_cons).
        apply lookup_insert_ne. congruence.
Qed.

(** The deriver writes [e2e_mean] and nothing else. *)
Lemma lookup_mechanistic_ne predictions outputTokens (k : string) :
  k ≠ "e2e_mean" →
  calculateE2EMeanMechanistically predictions outputTokens !! k
  = predictions !! k.
Proof.
  intros Hk. unfold calculateE2EMeanMechanistically.
  destruct (_ || _); rewrite !lookup_insert_ne; done.
Qed.

Lemma safeDivide_unusable numerator denominator fallback :
  unusable_rate denominator →
  safeDivide numerator denominator fallback = fallback.
Proof.
  intros [| | | | q Hq]; unfold safeDivide; simpl; try done.
  rewrite (Qle_bool_true q 0 Hq). by rewrite orb_true_r.
Qed.


(** The deriver on a non-negative finite [ttft_mean], once the generation
    time is known to be a non-negative finite number. *)
Lemma mechanistic_sum predictions outputTokens (t g : Q) :
  predictions !! "ttft_mean" = Some (Fin t) →
  mul (safeDivide (Fin outputTokens) (predictions !! "user_tps_mean")
         (mul (Fin outputTokens) (Fin 10))) (Fin 1000) = Fin g →
  0 <= t → 0 <= g →
  calculateE2EMeanMechanistically predictions outputTokens !! "e2e_mean"
  = Some (Fin (t + g)).
Proof.
  intros Ht Hg Ht0 Hg0. unfold calculateE2EMeanMechanistically.
  rewrite Hg, Ht, lookup_insert_eq. simpl.
  rewrite (Qle_bool_true 0 (t + g)) by lra. simpl.
  by rewrite lookup_insert_eq.
Qed.


Lemma mechanistic_unusable predictions outputTokens (t : Q) :
  predictions !! "ttft_mean" = Some (Fin t) →
  unusable_rate (predictions !! "user_tps_mean") →
  0 <= t → 0 <= outputTokens →
  calculateE2EMeanMechanistically predictions outputTokens !! "e2e_mean"
  = Some (Fin (t + outputTokens * 10 * 1000)).
Proof.
  intros Ht Hu Ht0 Ho. apply mechanistic_sum; [done | | done | lra].
  by rewrite safeDivide_unusable.
Qed.

End Predictions.

(** ** The interpolation routines *)

Section Interpolation.

Implicit Types (prediction : string → num) (k : string).

Lemma elem_of_metrics k :
  k ∈ metrics ↔
  k ∈ ttftMetrics ∨ k ∈ tpsMetrics ∨ k = "e2e_mean"
  ∨ k ∈ e2eRegressionMetrics ∨ k = "throughput".
Proof.
  unfold metrics.
  rewrite !elem_of_app, elem_of_cons, elem_of_app, list_elem_of_singleton.
  tauto.
Qed.

(** With a traffic level the result holds exactly the 25 regressed
    statistics. *)
Lemma lookup_interpolate_3D prediction targetOutput traffic k :
  interpolate prediction targetOutput (Some traffic) !! k
  = if decide (k ∈ metrics) then Some (prediction k) else None.
Proof.
  unfold interpolate. cbn [bool_decide decide_rel negb is_Some_dec].
  rewrite lookup_insert, !lookup_assign_each, lookup_empty.
  pose proof (elem_of_metrics k) as Hk.
  repeat case_decide; rewrite ?elem_of_cons in *; subst; try done;
    exfalso; intuition congruence.
Qed.

(** Without one, every statistic but [e2e_mean] is the regressed one. *)
Lemma lookup_interpolate_2D prediction targetOutput k :
  k ≠ "e2e_mean" →
  interpolate prediction targetOutput None !! k
  = if decide (k ∈ metrics) then Some (prediction k) else None.
Proof.
  intros Hne. unfold interpolate.
  cbn [bool_decide decide_rel negb is_Some_dec].
  rewrite lookup_mechanistic_ne by done.
  rewrite lookup_insert, !lookup_assign_each, lookup_empty.
  pose proof (elem_of_metrics k) as Hk.
  repeat case_decide; subst; try done; exfalso; intuition congruence.
Qed.


End Interpolation.

Section RegressionRoutines.

Context (type : FitType) (benchmarks : list BenchmarkRow).
Context (targetInput targetOutput : Q).

Lemma interpolation_routine_eq targetTraffic :
  interpolation_routine type benchmarks targetInput targetOutput
    targetTraffic
  = interpolate
      (regressed_value type benchmarks targetInput targetOutput
         targetTraffic)
      targetOutput targetTraffic.
Proof. by destruct type. Qed.




End RegressionRoutines.

(** ** Sums and the average fitter *)

Section Averaging.

Implicit Types (xs : list Q) (benchmarks : list BenchmarkRow).

Lemma foldl_Qplus_sum_of xs (a : Q) : foldl Qplus a xs == a + sum_of xs.
Proof.
  revert a. induction xs as [| x xs IH]; intros a; simpl.
  - ring.
  - rewrite IH. ring.
Qed.


Lemma sum_of_fmap_ext {A} (f g : A → Q) (l : list A) :
  (∀ a, f a == g a) → sum_of (f <$> l) == sum_of (g <$> l).
Proof.
  intros Hfg. induction l as [| a l IH]; simpl; [reflexivity |].
  by rewrite Hfg, IH.
Qed.

Lemma length_Q_nonneg {A} (l : list A) : 0 <= length_Q l.
Proof.
  unfold length_Q. change 0 with (inject_Z 0).
  rewrite <- Zle_Qle. lia.
Qed.

Lemma length_Q_fmap {A B} (f : A → B) (l : list A) :
  length_Q (f <$> l) = length_Q l.
Proof. unfold length_Q. by rewrite length_fmap. Qed.

(** The value [performSimpleAveraging] stores for a statistic. *)
Lemma lookup_performSimpleAveraging benchmarks (metric : string) :
  metric ∈ metrics →
  performSimpleAveraging benchmarks !! metric
  = Some (Fin (foldl Qplus 0 ((λ b, metric_value b metric) <$> benchmarks)
               / length_Q ((λ b, metric_value b metric) <$> benchmarks))).
Proof.
  intros Hin. unfold performSimpleAveraging.
  rewrite lookup_assign_each. by rewrite decide_True.
Qed.

(** It is the arithmetic mean of the column. *)
Lemma simple_average_is_mean benchmarks (metric : string) :
  foldl Qplus 0 ((λ b, metric_value b metric) <$> benchmarks)
  / length_Q ((λ b, metric_value b metric) <$> benchmarks)
  == arithmetic_mean (column benchmarks metric).
Proof.
  unfold arithmetic_mean, column. rewrite !length_Q_fmap.
  rewrite foldl_Qplus_sum_of, Qplus_0_l.
  rewrite (sum_of_fmap_ext (λ b, metric_value b metric)
             (λ b, default 0 (stats b !! metric))); [reflexivity |].
  intros b. apply or_else_0.
Qed.


End Averaging.

(** ** Non-negative predictions *)

Section NonNegative.

Context (type : FitType) (benchmarks : list BenchmarkRow).
Context (targetInput targetOutput : Q).


End NonNegative.

(** ** Method selection *)

Section MethodSelection.

Implicit Types (benchmarks : list BenchmarkRow) (request : ModelingRequest).

(** A list whose elements are all equal has at most one distinct value. *)
Lemma size_list_to_set_constant (l : list Z) :
  (∀ x y, x ∈ l → y ∈ l → x = y) → (size (list_to_set l : gset Z) < 2)%nat.
Proof.
  intros Hconst. destruct l as [| x l].
  - rewrite list_to_set_nil, size_empty. lia.
  - assert ((list_to_set (x :: l) : gset Z) ⊆ {[x]}) as Hsub.
    { intros y Hy%elem_of_list_to_set. apply elem_of_singleton.
      apply Hconst; [done | by left]. }
    apply subseteq_size in Hsub. rewrite size_singleton in Hsub. lia.
Qed.

(** Two different elements make at least two distinct values. *)
Lemma size_list_to_set_two (l : list Z) (x y : Z) :
  x ∈ l → y ∈ l → x ≠ y → (2 ≤ size (list_to_set l : gset Z))%nat.
Proof.
  intros Hx Hy Hne.
  assert (({[x; y]} : gset Z) ⊆ list_to_set l) as Hsub.
  { intros z. rewrite elem_of_union, !elem_of_singleton, elem_of_list_to_set.
    by intros [-> | ->]. }
  apply subseteq_size in Hsub.
  rewrite size_union, !size_singleton in Hsub by set_solver. lia.
Qed.

Lemma hasVariation_constant benchmarks :
  rounded_tokens_constant benchmarks → hasVariation benchmarks = false.
Proof.
  intros Hconst. unfold hasVariation.
  rewrite !bool_decide_eq_false_2; [done | |].
  - apply Nat.lt_nge, size_list_to_set_constant.
    intros x y (b1 & -> & Hb1)%list_elem_of_fmap
      (b2 & -> & Hb2)%list_elem_of_fmap.
    by apply Hconst.
  - apply Nat.lt_nge, size_list_to_set_constant.
    intros x y (b1 & -> & Hb1)%list_elem_of_fmap
      (b2 & -> & Hb2)%list_elem_of_fmap.
    by apply Hconst.
Qed.

Lemma hasVariation_two_rows (b1 b2 : BenchmarkRow) :
  round (input_avg_len b1) ≠ round (input_avg_len b2)
  ∨ round (output_avg_len b1) ≠ round (output_avg_len b2) →
  hasVariation [b1; b2] = true.
Proof.
  intros [Hin | Hout]; unfold hasVariation; apply orb_true_iff; [left | right];
    apply bool_decide_eq_true_2;
    (eapply size_list_to_set_two; [| | eassumption]); set_solver.
Qed.

(** With a single benchmark, or without variation, the switch dispatches on
    [average]. *)
Lemma effectiveMethod_average benchmarks method :
  benchmarks ≠ [] →
  (length benchmarks < 2)%nat ∨ rounded_tokens_constant benchmarks →
  effectiveMethod benchmarks method = average.
Proof.
  intros Hne Hfew. unfold effectiveMethod.
  destruct Hfew as [Hlen | Hconst].
  - rewrite bool_decide_eq_true_2; [done |].
    destruct benchmarks as [| b [| b' l]]; simpl in *; [done | done | lia].
  - rewrite (hasVariation_constant _ Hconst). by rewrite orb_true_r.
Qed.

(** With fewer than three benchmarks it never dispatches on [polynomial]. *)
Lemma effectiveMethod_not_polynomial benchmarks method :
  (length benchmarks < 3)%nat →
  effectiveMethod benchmarks method ≠ polynomial.
Proof.
  intros Hlen. unfold effectiveMethod.
  destruct (_ || _); [done |].
  rewrite (bool_decide_eq_true_2 _ Hlen). simpl.
  case_bool_decide; [done | done].
Qed.

Lemma predictAutoDetect_respects benchmarks request :
  benchmarks ≠ [] →
  respects_data_sufficiency benchmarks (predictAutoDetect benchmarks request).
Proof.
  intros Hne. unfold respects_data_sufficiency, predictAutoDetect. split.
  - intros Hlen. destruct (_ || _); [by intros [? | ?] |].
    rewrite decide_True by done. by intros [? | ?].
  - intros Hfew.
    assert (bool_decide (length benchmarks = 1%nat)
            || negb (hasVariation benchmarks) = true) as ->; [| by right].
    destruct Hfew as [Hlen | Hconst].
    + rewrite bool_decide_eq_true_2; [done |].
      destruct benchmarks as [| b [| b' l]]; simpl in *; [done | done | lia].
    + rewrite (hasVariation_constant _ Hconst). by rewrite orb_true_r.
Qed.

Lemma predictPerformance_respects benchmarks request :
  benchmarks ≠ [] →
  ∃ result,
    predictPerformance benchmarks request = Some result
    ∧ respects_data_sufficiency benchmarks result.
Proof.
  intros Hne. unfold predictPerformance.
  rewrite decide_False by (by destruct benchmarks).
  eexists. split; [reflexivity |]. split.
  - intros Hlen.
    pose proof (effectiveMethod_not_polynomial benchmarks
                  (default auto_detect (req_method request)) Hlen) as Hm.
    destruct (effectiveMethod _ _); [| done | by intros [? | ?] ..].
    by apply predictAutoDetect_respects.
  - intros Hfew. rewrite effectiveMethod_average by done. by left.
Qed.

(** The predictions a result carries, by the method dispatched on. *)
Lemma predictAutoDetect_predictions benchmarks request :
  predictions (predictAutoDetect benchmarks request)
  = performSimpleAveraging benchmarks
  ∨ ∃ type,
      predictions (predictAutoDetect benchmarks request)
      = interpolation_routine type benchmarks (req_input_tokens request)
          (req_output_tokens request) (req_traffic_level request).
Proof.
  unfold predictAutoDetect.
  destruct (_ || _); [by left |].
  destruct (decide _); [right; by exists fit_linear |].
  destruct (detectLinearity _); right;
    [by exists fit_linear | by exists fit_polynomial].
Qed.

Lemma predictPerformance_predictions benchmarks request result :
  predictPerformance benchmarks request = Some result →
  predictions result = performSimpleAveraging benchmarks
  ∨ ∃ type,
      predictions result
      = interpolation_routine type benchmarks (req_input_tokens request)
          (req_output_tokens request) (req_traffic_level request).
Proof.
  unfold predictPerformance. destruct (decide _); [done |].
  intros [= <-]. destruct (effectiveMethod _ _).
  - apply predictAutoDetect_predictions.
  - right. by exists fit_polynomial.
  - right. by exists fit_linear.
  - by left.
Qed.

End MethodSelection.

(** ** Confidence *)

Section ConfidenceScore.

Implicit Types (xs : list Q) (benchmarks : list BenchmarkRow) (d : dist).

Lemma foldl_Qmin_le xs (a x : Q) :
  x == a ∨ x ∈ xs → foldl Qmin a xs <= x.
Proof.
  revert a x. induction xs as [| y xs IH]; intros a x [Hx | Hx]; simpl.
  - rewrite Hx. apply Qle_refl.
  - by apply elem_of_nil in Hx.
  - eapply Qle_trans; [apply IH; left; reflexivity |].
    rewrite Hx. apply Q.le_min_l.
  - apply elem_of_cons in Hx as [-> | Hx].
    + eapply Qle_trans; [apply IH; left; reflexivity |]. apply Q.le_min_r.
    + apply IH. by right.
Qed.

Lemma foldl_Qmax_ge xs (a x : Q) :
  x == a ∨ x ∈ xs → x <= foldl Qmax a xs.
Proof.
  revert a x. induction xs as [| y xs IH]; intros a x [Hx | Hx]; simpl.
  - rewrite Hx. apply Qle_refl.
  - by apply elem_of_nil in Hx.
  - eapply Qle_trans; [| apply IH; left; reflexivity].
    rewrite Hx. apply Q.le_max_l.
  - apply elem_of_cons in Hx as [-> | Hx].
    + eapply Qle_trans; [| apply IH; left; reflexivity]. apply Q.le_max_r.
    + apply IH. by right.
Qed.

Lemma foldl_Qmin_gt xs (a c : Q) :
  c < a → (∀ x, x ∈ xs → c < x) → c < foldl Qmin a xs.
Proof.
  revert a. induction xs as [| y xs IH]; intros a Ha Hxs; simpl; [done |].
  apply IH.
  - apply Q.min_glb_lt; [done |]. apply Hxs. by left.
  - intros x Hx. apply Hxs. by right.
Qed.

Lemma foldl_Qmax_lt xs (a c : Q) :
  a < c → (∀ x, x ∈ xs → x < c) → foldl Qmax a xs < c.
Proof.
  revert a. induction xs as [| y xs IH]; intros a Ha Hxs; simpl; [done |].
  apply IH.
  - apply Q.max_lub_lt; [done |]. apply Hxs. by left.
  - intros x Hx. apply Hxs. by right.
Qed.

Lemma min_of_le xs (x : Q) : x ∈ xs → min_of xs <= x.
Proof.
  destruct xs as [| a xs]; [by intros ?%elem_of_nil |].
  intros [-> | Hx]%elem_of_cons; apply foldl_Qmin_le;
    [left; reflexivity | by right].
Qed.

Lemma max_of_ge xs (x : Q) : x ∈ xs → x <= max_of xs.
Proof.
  destruct xs as [| a xs]; [by intros ?%elem_of_nil |].
  intros [-> | Hx]%elem_of_cons; apply foldl_Qmax_ge;
    [left; reflexivity | by right].
Qed.

Lemma min_of_gt xs (c : Q) :
  xs ≠ [] → (∀ x, x ∈ xs → c < x) → c < min_of xs.
Proof.
  destruct xs as [| a xs]; [done |]. intros _ Hxs.
  apply foldl_Qmin_gt; [apply Hxs; by left |].
  intros x Hx. apply Hxs. by right.
Qed.

Lemma max_of_lt xs (c : Q) :
  xs ≠ [] → (∀ x, x ∈ xs → x < c) → max_of xs < c.
Proof.
  destruct xs as [| a xs]; [done |]. intros _ Hxs.
  apply foldl_Qmax_lt; [apply Hxs; by left |].
  intros x Hx. apply Hxs. by right.
Qed.

(** [Math.min] passes a threshold as soon as one argument does. *)
Lemma dist_ltb_min d1 d2 (c : Q) :
  dist_ltb (dist_min d1 d2) c = dist_ltb d1 c || dist_ltb d2 c.
Proof.
  destruct d1 as [a |], d2 as [b |]; simpl; try done; [| by rewrite orb_false_r].
  destruct (Q.min_spec a b) as [[Hlt ->] | [Hle ->]].
  - destruct (Qle_bool (c * c) a) eqn:Ea; simpl; [| done].
    apply Qle_bool_iff in Ea. rewrite (Qle_bool_true (c * c) b); [done | lra].
  - destruct (Qle_bool (c * c) b) eqn:Eb; simpl; [| by rewrite orb_true_r].
    apply Qle_bool_iff in Eb. rewrite (Qle_bool_true (c * c) a); [done | lra].
Qed.

(** The running minimum passes a threshold iff its start or one of the
    distances does. *)
Lemma dist_ltb_foldl {A} (f : A → dist) (l : list A) (init : dist) (c : Q) :
  dist_ltb (foldl (λ m a, dist_min m (f a)) init l) c
  = dist_ltb init c || existsb (λ a, dist_ltb (f a) c) l.
Proof.
  revert init. induction l as [| a l IH]; intros init; simpl.
  - by rewrite orb_false_r.
  - by rewrite IH, dist_ltb_min, orb_assoc.
Qed.

Lemma dist_ltb_minDistance benchmarks (targetInput targetOutput c : Q) :
  dist_ltb (minDistance benchmarks targetInput targetOutput) c
  = existsb (λ b, dist_ltb (distance benchmarks targetInput targetOutput b) c)
      benchmarks.
Proof. unfold minDistance. by rewrite dist_ltb_foldl. Qed.

Lemma dist_ltb_at_least d (c : Q) : dist_at_least d c → dist_ltb d c = false.
Proof.
  destruct d as [a |]; simpl; [| done].
  intros Hle. by rewrite (Qle_bool_true _ _ Hle).
Qed.

(** A benchmark at the target is at distance 0. *)
Lemma distance_matching benchmarks (targetInput targetOutput : Q) b :
  input_avg_len b == targetInput → output_avg_len b == targetOutput →
  ∃ a, distance benchmarks targetInput targetOutput b = Sqrt a ∧ a == 0.
Proof.
  intros Hin Hout. unfold distance. eexists. split; [reflexivity |].
  assert (Qabs (input_avg_len b - targetInput) == 0) as Hi.
  { assert (input_avg_len b - targetInput == 0) as -> by lra. reflexivity. }
  assert (Qabs (output_avg_len b - targetOutput) == 0) as Ho.
  { assert (output_avg_len b - targetOutput == 0) as -> by lra.
    reflexivity. }
  destruct (decide _), (decide _); rewrite ?Hi, ?Ho; unfold Qdiv; ring.
Qed.

(** Every distance is the square root of a non-negative radicand. *)
Lemma distance_radicand benchmarks (targetInput targetOutput : Q) b :
  ∃ a, distance benchmarks targetInput targetOutput b = Sqrt a ∧ 0 <= a.
Proof.
  unfold distance. eexists. split; [reflexivity |].
  set (x := if decide (0 < inputRange benchmarks) then _ else _).
  set (y := if decide (0 < outputRange benchmarks) then _ else _).
  clearbody x y. nra.
Qed.

(** The running minimum over square roots, started from one of them, is the
    square root of a radicand below all of them and bounded below like
    them. *)
Lemma foldl_dist_min_Sqrt {A} (f : A → dist) (l : list A) (r0 lo : Q) :
  lo <= r0 →
  (∀ x, x ∈ l → ∃ r, f x = Sqrt r ∧ lo <= r) →
  ∃ a, foldl (λ m x, dist_min m (f x)) (Sqrt r0) l = Sqrt a
       ∧ lo <= a ∧ a <= r0
       ∧ ∀ x r, x ∈ l → f x = Sqrt r → a <= r.
Proof.
  revert r0. induction l as [| x l IH]; intros r0 Hr0 Hl; cbn [foldl].
  - exists r0. split; [done |]. split; [done |]. split; [apply Qle_refl |].
    by intros x r ?%elem_of_nil.
  - destruct (Hl x) as (r & Hfx & Hr); [by left |]. rewrite Hfx.
    cbn [dist_min].
    destruct (IH (Qmin r0 r)) as (a & Ha & Hlo & Hhi & Hall).
    { by apply Q.min_glb. }
    { intros y Hy. apply Hl. by right. }
    exists a. split; [done |]. split; [done |].
    pose proof (Q.le_min_l r0 r). pose proof (Q.le_min_r r0 r).
    split; [lra |].
    intros y r' [-> | Hy]%elem_of_cons Hfy.
    + assert (r' = r) as -> by congruence. lra.
    + by apply (Hall y).
Qed.

(** On a non-empty set the minimum distance is a square root, below every
    distance. *)
Lemma minDistance_Sqrt benchmarks (targetInput targetOutput : Q) :
  benchmarks ≠ [] →
  ∃ a, minDistance benchmarks targetInput targetOutput = Sqrt a
       ∧ 0 <= a
       ∧ ∀ b r, b ∈ benchmarks →
           distance benchmarks targetInput targetOutput b = Sqrt r → a <= r.
Proof.
  intros Hne. unfold minDistance.
  set (f := distance benchmarks targetInput targetOutput).
  assert (∀ b, ∃ r, f b = Sqrt r ∧ 0 <= r) as Hf
    by (intros b; apply distance_radicand).
  clearbody f. destruct benchmarks as [| b0 l]; [done |]. cbn [foldl].
  destruct (Hf b0) as (r0 & Hr0 & Hr0pos). rewrite Hr0. cbn [dist_min].
  destruct (foldl_dist_min_Sqrt f l r0 0 Hr0pos) as (a & Ha & Hlo & Hhi & Hall).
  { intros x _. apply Hf. }
  exists a. split; [done |]. split; [done |].
  intros b r [-> | Hb]%elem_of_cons Hfb.
  - assert (r = r0) as -> by congruence. done.
  - by apply (Hall b).
Qed.

Lemma minDistance_matching benchmarks (targetInput targetOutput : Q) b :
  b ∈ benchmarks →
  input_avg_len b == targetInput → output_avg_len b == targetOutput →
  ∃ a, minDistance benchmarks targetInput targetOutput = Sqrt a ∧ a == 0.
Proof.
  intros Hb Hin Hout.
  destruct (minDistance_Sqrt benchmarks targetInput targetOutput)
    as (a & Ha & Hpos & Hall); [by intros -> ; apply elem_of_nil in Hb |].
  destruct (distance_matching benchmarks targetInput targetOutput b Hin Hout)
    as (r & Hr & Hr0).
  exists a. split; [done |].
  pose proof (Hall b r Hb Hr). lra.
Qed.

Lemma isExtrapolating_matching benchmarks (targetInput targetOutput : Q) b :
  b ∈ benchmarks →
  input_avg_len b == targetInput → output_avg_len b == targetOutput →
  isExtrapolating benchmarks targetInput targetOutput = false.
Proof.
  intros Hb Hin Hout. unfold isExtrapolating.
  assert (input_avg_len b ∈ input_avg_len <$> benchmarks) as Hbin
    by (apply list_elem_of_fmap; eauto).
  assert (output_avg_len b ∈ output_avg_len <$> benchmarks) as Hbout
    by (apply list_elem_of_fmap; eauto).
  pose proof (min_of_le _ _ Hbin). pose proof (max_of_ge _ _ Hbin).
  pose proof (min_of_le _ _ Hbout). pose proof (max_of_ge _ _ Hbout).
  rewrite !bool_decide_eq_false_2; [done | lra ..].
Qed.

Lemma isExtrapolating_outside benchmarks (targetInput targetOutput : Q) :
  benchmarks ≠ [] →
  outside_envelope benchmarks targetInput targetOutput →
  isExtrapolating benchmarks targetInput targetOutput = true.
Proof.
  intros Hne Hout. unfold isExtrapolating.
  assert (input_avg_len <$> benchmarks ≠ []) by (by destruct benchmarks).
  assert (output_avg_len <$> benchmarks ≠ []) by (by destruct benchmarks).
  rewrite !orb_true_iff, !bool_decide_eq_true.
  destruct Hout as [Hlo | [Hhi | [Hlo | Hhi]]].
  - left. left. left. apply min_of_gt; [done |].
    intros x (b & -> & Hb)%list_elem_of_fmap. by apply Hlo.
  - left. left. right. apply max_of_lt; [done |].
    intros x (b & -> & Hb)%list_elem_of_fmap. by apply Hhi.
  - left. right. apply min_of_gt; [done |].
    intros x (b & -> & Hb)%list_elem_of_fmap. by apply Hlo.
  - right. apply max_of_lt; [done |].
    intros x (b & -> & Hb)%list_elem_of_fmap. by apply Hhi.
Qed.

Lemma calculateConfidence_matching benchmarks (targetInput targetOutput : Q) b :
  b ∈ benchmarks →
  input_avg_len b == targetInput → output_avg_len b == targetOutput →
  calculateConfidence benchmarks targetInput targetOutput = high.
Proof.
  intros Hb Hin Hout. unfold calculateConfidence.
  rewrite (isExtrapolating_matching _ _ _ b) by done.
  assert (dist_ltb (minDistance benchmarks targetInput targetOutput) 0.1
          = true) as ->; [| done].
  rewrite dist_ltb_minDistance. apply existsb_exists. exists b.
  split; [by apply list_elem_of_In |].
  destruct (distance_matching benchmarks targetInput targetOutput b Hin Hout)
    as (a & -> & Ha).
  simpl. rewrite Qle_bool_false; [done |]. rewrite Ha. reflexivity.
Qed.

Lemma calculateConfidence_far benchmarks (targetInput targetOutput : Q) :
  benchmarks ≠ [] →
  (∀ b, b ∈ benchmarks →
     dist_at_least (distance benchmarks targetInput targetOutput b) 0.3) →
  outside_envelope benchmarks targetInput targetOutput →
  calculateConfidence benchmarks targetInput targetOutput = low.
Proof.
  intros Hne Hfar Hout. unfold calculateConfidence.
  rewrite (isExtrapolating_outside _ _ _ Hne Hout).
  assert (dist_ltb (minDistance benchmarks targetInput targetOutput) 0.3
          = false) as Hmin.
  { rewrite dist_ltb_minDistance.
    apply not_true_is_false. intros (b & Hb & Hlt)%existsb_exists.
    apply list_elem_of_In in Hb.
    by rewrite (dist_ltb_at_least _ _ (Hfar b Hb)) in Hlt. }
  rewrite Hmin. simpl. rewrite andb_false_r. done.
Qed.

End ConfidenceScore.

(** ** The traffic feature *)

Section TrafficFeature.

Implicit Types (b : BenchmarkRow) (data : list BenchmarkRow).

Lemma traffic_feature_zero_or_absent b :
  zero_or_absent (traffic_level b) → traffic_feature b = 0.5.
Proof.
  unfold traffic_feature, zero_or_absent.
  destruct (traffic_level b) as [q |]; simpl; [| done].
  intros Hq. apply Qeq_bool_iff in Hq. by rewrite Hq.
Qed.

Lemma traffic_feature_same b b' :
  same_but_zero_traffic b b' → traffic_feature b = traffic_feature b'.
Proof.
  intros (_ & _ & _ & [Heq | [Hz Hz']]).
  - unfold traffic_feature. by rewrite Heq.
  - by rewrite !traffic_feature_zero_or_absent.
Qed.

(** Related data sets build the same design matrices and targets. *)
Lemma design_same data data' (targetMetric : string) :
  Forall2 same_but_zero_traffic data data' →
  linear3D_row <$> data = linear3D_row <$> data'
  ∧ poly3D_row <$> data = poly3D_row <$> data'
  ∧ (λ point, metric_value point targetMetric) <$> data
    = (λ point, metric_value point targetMetric) <$> data'.
Proof.
  induction 1 as [| b b' data data' Hb _ (IH1 & IH2 & IH3)]; [done |].
  rewrite !fmap_cons, IH1, IH2, IH3.
  pose proof (traffic_feature_same b b' Hb) as Ht.
  destruct Hb as (Hin & Hout & Hstats & _).
  unfold linear3D_row, poly3D_row, metric_value.
  by rewrite Hin, Hout, Hstats, Ht.
Qed.

End TrafficFeature.

(** ** The two-feature linear fit on a plane *)

Section SumOf.

Context {A : Type}.
Implicit Types (f g : A → Q) (l : list A).

Lemma length_Q_cons (a : A) l : length_Q (a :: l) == 1 + length_Q l.
Proof.
  unfold length_Q. cbn [length]. rewrite Nat2Z.inj_succ, <- Z.add_1_l.
  by rewrite inject_Z_plus.
Qed.

Lemma length_Q_pos l : l ≠ [] → 0 < length_Q l.
Proof.
  destruct l as [| a l]; [done |]. intros _.
  rewrite length_Q_cons. pose proof (length_Q_nonneg l). lra.
Qed.

Lemma sum_of_fmap_ext_in f g l :
  (∀ a, a ∈ l → f a == g a) → sum_of (f <$> l) == sum_of (g <$> l).
Proof.
  induction l as [| a l IH]; intros Hfg; simpl; [reflexivity |].
  rewrite (Hfg a) by (by left). rewrite IH; [reflexivity |].
  intros a' Ha'. apply Hfg. by right.
Qed.

(** The sum of an affine combination of two columns. *)
Lemma sum_of_affine f g (a b c : Q) l :
  sum_of ((λ x, a + b * f x + c * g x) <$> l)
  == a * length_Q l + b * sum_of (f <$> l) + c * sum_of (g <$> l).
Proof.
  induction l as [| x l IH].
  - simpl. unfold length_Q. simpl. ring.
  - rewrite !fmap_cons. cbn [sum_of]. rewrite IH, length_Q_cons. ring.
Qed.

(** The sum of products with a combination of two columns. *)
Lemma sum_of_bilinear f g h (b c : Q) l :
  sum_of ((λ x, h x * (b * f x + c * g x)) <$> l)
  == b * sum_of ((λ x, h x * f x) <$> l)
     + c * sum_of ((λ x, h x * g x) <$> l).
Proof.
  induction l as [| x l IH].
  - cbn [fmap list_fmap sum_of]. ring.
  - rewrite !fmap_cons. cbn [sum_of]. rewrite IH. ring.
Qed.

End SumOf.

Section LinearFit.

Context (data : list BenchmarkRow) (targetMetric : string).

(** The first loop computes the three sums the fit reads. *)
Lemma foldl_sums_step (s0 : Sums) :
  let s := foldl (sums_step targetMetric) s0 data in
  sumX1 s == sumX1 s0 + sum_of (input_avg_len <$> data)
  ∧ sumX2 s == sumX2 s0 + sum_of (output_avg_len <$> data)
  ∧ sumY s
    == sumY s0 + sum_of ((λ p, metric_value p targetMetric) <$> data).
Proof.
  revert s0. induction data as [| p l IH]; intros s0; cbn [foldl].
  - cbn [fmap list_fmap sum_of]. repeat split; ring.
  - destruct (IH (sums_step targetMetric s0 p)) as (H1 & H2 & H3).
    rewrite H1, H2, H3, !fmap_cons.
    cbn [sum_of sums_step sumX1 sumX2 sumY]. repeat split; ring.
Qed.

(** The second loop computes the five centred moments. *)
Lemma foldl_moments_step (meanX1 meanX2 meanY : Q) (m0 : Moments) :
  let dx1 p := input_avg_len p - meanX1 in
  let dx2 p := output_avg_len p - meanX2 in
  let dy p := metric_value p targetMetric - meanY in
  let m := foldl (moments_step targetMetric meanX1 meanX2 meanY) m0 data in
  varX1 m == varX1 m0 + sum_of ((λ p, dx1 p * dx1 p) <$> data)
  ∧ varX2 m == varX2 m0 + sum_of ((λ p, dx2 p * dx2 p) <$> data)
  ∧ covX1X2 m == covX1X2 m0 + sum_of ((λ p, dx1 p * dx2 p) <$> data)
  ∧ covX1Y m == covX1Y m0 + sum_of ((λ p, dx1 p * dy p) <$> data)
  ∧ covX2Y m == covX2Y m0 + sum_of ((λ p, dx2 p * dy p) <$> data).
Proof.
  intros dx1 dx2 dy. revert m0.
  induction data as [| p l IH]; intros m0; cbn [foldl].
  - cbn [fmap list_fmap sum_of]. repeat split; ring.
  - destruct (IH (moments_step targetMetric meanX1 meanX2 meanY m0 p))
      as (H1 & H2 & H3 & H4 & H5).
    rewrite H1, H2, H3, H4, H5, !fmap_cons.
    cbn [sum_of moments_step varX1 varX2 covX1X2 covX1Y covX2Y].
    subst dx1 dx2 dy. repeat split; ring.
Qed.

(** When the determinant passes the guard, the fit is the closed form of
    the normal equations. *)
Lemma fitLinearModel_regular :
  1e-10 < Qabs (linear_denom data targetMetric) →
  let n := length_Q data in
  let s := linear_sums data targetMetric in
  let m := linear_moments data targetMetric in
  let denom := linear_denom data targetMetric in
  let inputCoeff := (covX1Y m * varX2 m - covX2Y m * covX1X2 m) / denom in
  let outputCoeff := (covX2Y m * varX1 m - covX1Y m * covX1X2 m) / denom in
  fitLinearModel data targetMetric
  = {| Linear.intercept :=
         sumY s / n - inputCoeff * (sumX1 s / n)
         - outputCoeff * (sumX2 s / n);
       Linear.inputCoeff := inputCoeff;
       Linear.outputCoeff := outputCoeff |}.
Proof.
  intros Hdet. unfold fitLinearModel. by rewrite decide_True.
Qed.

Lemma regular_nonempty :
  1e-10 < Qabs (linear_denom data targetMetric) → data ≠ [].
Proof.
  intros Hdet ->. vm_compute in Hdet. discriminate.
Qed.

Lemma regular_nonzero :
  1e-10 < Qabs (linear_denom data targetMetric) →
  ¬ linear_denom data targetMetric == 0.
Proof.
  intros Hdet Hz. rewrite Hz in Hdet. vm_compute in Hdet. discriminate.
Qed.

Context (a b c : Q).
Hypothesis on_plane :
  ∀ p, p ∈ data →
    metric_value p targetMetric
    == a + b * input_avg_len p + c * output_avg_len p.
Hypothesis regular : 1e-10 < Qabs (linear_denom data targetMetric).

(** The mean of the statistic lies on the plane above the mean point. *)
Lemma mean_on_plane :
  let n := length_Q data in
  let s := linear_sums data targetMetric in
  sumY s / n == a + b * (sumX1 s / n) + c * (sumX2 s / n).
Proof using All.
  intros n s.
  destruct (foldl_sums_step
              {| sumX1 := 0; sumX2 := 0; sumY := 0; sumX1X1 := 0;
                 sumX2X2 := 0; sumX1X2 := 0; sumX1Y := 0; sumX2Y := 0 |})
    as (H1 & H2 & H3).
  fold (linear_sums data targetMetric) in H1, H2, H3. fold s in H1, H2, H3.
  simpl in H1, H2, H3.
  rewrite H1, H2, H3.
  rewrite (sum_of_fmap_ext_in _
             (λ p, a + b * input_avg_len p + c * output_avg_len p))
    by exact on_plane.
  rewrite sum_of_affine. fold n.
  pose proof (length_Q_pos data (regular_nonempty regular)) as Hn. fold n in Hn.
  field. lra.
Qed.

(** The covariances with the statistic are combinations of the moments of
    the two features. *)
Lemma covariances_on_plane :
  let m := linear_moments data targetMetric in
  covX1Y m == b * varX1 m + c * covX1X2 m
  ∧ covX2Y m == b * covX1X2 m + c * varX2 m.
Proof using All.
  intros m. pose proof mean_on_plane as Hmean. cbv zeta in Hmean.
  unfold linear_moments in m.
  destruct (foldl_moments_step
              (sumX1 (linear_sums data targetMetric) / length_Q data)
              (sumX2 (linear_sums data targetMetric) / length_Q data)
              (sumY (linear_sums data targetMetric) / length_Q data)
              {| varX1 := 0; varX2 := 0; covX1X2 := 0; covX1Y := 0;
                 covX2Y := 0 |})
    as (H1 & H2 & H3 & H4 & H5).
  fold m in H1, H2, H3, H4, H5. simpl in H1, H2, H3, H4, H5.
  rewrite H1, H2, H3, H4, H5.
  set (mx1 := sumX1 (linear_sums data targetMetric) / length_Q data) in *.
  set (mx2 := sumX2 (linear_sums data targetMetric) / length_Q data) in *.
  set (my := sumY (linear_sums data targetMetric) / length_Q data) in *.
  assert (∀ p, p ∈ data →
            metric_value p targetMetric - my
            == b * (input_avg_len p - mx1) + c * (output_avg_len p - mx2))
    as Hdy.
  { intros p Hp. rewrite (on_plane p Hp), Hmean. ring. }
  split.
  - rewrite (sum_of_fmap_ext_in
               (λ p, (input_avg_len p - mx1)
                     * (metric_value p targetMetric - my))
               (λ p, (input_avg_len p - mx1)
                     * (b * (input_avg_len p - mx1)
                        + c * (output_avg_len p - mx2)))).
    + rewrite sum_of_bilinear. ring.
    + intros p Hp. by rewrite (Hdy p Hp).
  - rewrite (sum_of_fmap_ext_in
               (λ p, (output_avg_len p - mx2)
                     * (metric_value p targetMetric - my))
               (λ p, (output_avg_len p - mx2)
                     * (b * (input_avg_len p - mx1)
                        + c * (output_avg_len p - mx2)))).
    + rewrite sum_of_bilinear.
      rewrite (sum_of_fmap_ext_in
                 (λ p, (output_avg_len p - mx2) * (input_avg_len p - mx1))
                 (λ p, (input_avg_len p - mx1) * (output_avg_len p - mx2))).
      * ring.
      * intros p _. ring.
    + intros p Hp. by rewrite (Hdy p Hp).
Qed.

(** The fit recovers the plane. *)
Lemma fitLinearModel_on_plane :
  Linear.intercept (fitLinearModel data targetMetric) == a
  ∧ Linear.inputCoeff (fitLinearModel data targetMetric) == b
  ∧ Linear.outputCoeff (fitLinearModel data targetMetric) == c.
Proof using All.
  rewrite (fitLinearModel_regular regular). cbv zeta. simpl.
  destruct covariances_on_plane as (Hc1 & Hc2). cbv zeta in Hc1, Hc2.
  pose proof mean_on_plane as Hmean. cbv zeta in Hmean.
  pose proof (regular_nonzero regular) as Hnz. unfold linear_denom in *.
  set (m := linear_moments data targetMetric) in *.
  assert ((covX1Y m * varX2 m - covX2Y m * covX1X2 m)
          / (varX1 m * varX2 m - covX1X2 m * covX1X2 m) == b) as Hb.
  { rewrite Hc1, Hc2. field. exact Hnz. }
  assert ((covX2Y m * varX1 m - covX1Y m * covX1X2 m)
          / (varX1 m * varX2 m - covX1X2 m * covX1X2 m) == c) as Hc.
  { rewrite Hc1, Hc2. field. exact Hnz. }
  split; [| split; [exact Hb | exact Hc]].
  rewrite Hb, Hc, Hmean. ring.
Qed.

End LinearFit.

(** ** The dispatch of [predictPerformance] *)

Section Dispatch.

Implicit Types (benchmarks : list BenchmarkRow) (request : ModelingRequest).

Lemma predictPerformance_dispatched benchmarks request :
  benchmarks ≠ [] →
  ∃ result,
    predictPerformance benchmarks request = Some result
    ∧ dispatched benchmarks request result.
Proof.
  intros Hne. unfold predictPerformance.
  rewrite decide_False by (by destruct benchmarks).
  eexists. split; [reflexivity |].
  unfold effectiveMethod, predictAutoDetect.
  destruct (bool_decide (length benchmarks = 1%nat)) eqn:Hone;
    [apply dispatched_average |].
  apply bool_decide_eq_false in Hone.
  destruct (hasVariation benchmarks) eqn:Hvar; [| apply dispatched_average].
  assert (2 ≤ length benchmarks)%nat as Htwo
    by (destruct benchmarks as [| b [| b' l]]; simpl in *; [done | done | lia]).
  cbn [negb orb].
  destruct (bool_decide (length benchmarks < 3)%nat) eqn:Hfew.
  - apply bool_decide_eq_true in Hfew.
    destruct (default auto_detect (req_method request)); cbn.
    + rewrite decide_True by done. by apply dispatched_auto_linear.
    + by apply dispatched_linear.
    + by apply dispatched_linear.
    + apply dispatched_average.
  - apply bool_decide_eq_false in Hfew.
    assert (3 ≤ length benchmarks)%nat by lia.
    destruct (default auto_detect (req_method request)); cbn.
    + rewrite decide_False by done.
      destruct (detectLinearity benchmarks) eqn:Hlin.
      * by apply dispatched_auto_linear.
      * by apply dispatched_auto_polynomial.
    + by apply dispatched_polynomial.
    + by apply dispatched_linear.
    + apply dispatched_average.
Qed.

End Dispatch.

(** ** Variation of the rounded tokens *)

Section Variation.

Implicit Types (benchmarks : list BenchmarkRow).

(** Fewer than two distinct values: all the elements are equal. *)
Lemma size_list_to_set_lt_2 (l : list Z) (x y : Z) :
  (size (list_to_set l : gset Z) < 2)%nat → x ∈ l → y ∈ l → x = y.
Proof.
  intros Hsize Hx Hy. destruct (decide (x = y)) as [| Hne]; [done |].
  pose proof (size_list_to_set_two l x y Hx Hy Hne). lia.
Qed.

Lemma hasVariation_vary benchmarks :
  rounded_tokens_vary benchmarks → hasVariation benchmarks = true.
Proof.
  intros (b1 & b2 & Hb1 & Hb2 & [Hin | Hout]); unfold hasVariation;
    apply orb_true_iff; [left | right]; apply bool_decide_eq_true_2;
    (eapply size_list_to_set_two; [| | eassumption]);
    apply list_elem_of_fmap; eauto.
Qed.

Lemma hasVariation_false benchmarks :
  hasVariation benchmarks = false ↔ rounded_tokens_constant benchmarks.
Proof.
  split; [| apply hasVariation_constant].
  unfold hasVariation. intros [Hin Hout]%orb_false_iff.
  apply bool_decide_eq_false in Hin. apply bool_decide_eq_false in Hout.
  intros b1 b2 Hb1 Hb2. split.
  - apply (size_list_to_set_lt_2
             ((λ b, round (input_avg_len b)) <$> benchmarks)); [lia | |];
      apply list_elem_of_fmap; eauto.
  - apply (size_list_to_set_lt_2
             ((λ b, round (output_avg_len b)) <$> benchmarks)); [lia | |];
      apply list_elem_of_fmap; eauto.
Qed.

End Variation.

Section VariationConverse.

(** Two distinct values come from two different elements. *)
Lemma size_list_to_set_ge_2 (l : list Z) :
  (2 ≤ size (list_to_set l : gset Z))%nat → ∃ x y, x ∈ l ∧ y ∈ l ∧ x ≠ y.
Proof.
  intros Hsize. destruct l as [| x l].
  - rewrite list_to_set_nil, size_empty in Hsize. lia.
  - destruct (decide (Forall (λ y, y = x) l)) as [Hall | Hex].
    + pose proof (size_list_to_set_constant (x :: l)) as Hlt.
      rewrite Forall_forall in Hall.
      assert (∀ y, y ∈ x :: l → y = x) as Hx.
      { intros y [-> | Hy]%elem_of_cons; [done | by apply Hall]. }
      assert (size (list_to_set (x :: l) : gset Z) < 2)%nat; [| lia].
      apply Hlt. intros y z Hy Hz. by rewrite (Hx y Hy), (Hx z Hz).
    + apply not_Forall_Exists in Hex; [| apply _].
      apply Exists_exists in Hex as (y & Hy & Hne).
      exists x, y. split; [by left |]. split; [by right |]. congruence.
Qed.

Lemma hasVariation_true (benchmarks : list BenchmarkRow) :
  hasVariation benchmarks = true ↔ rounded_tokens_vary benchmarks.
Proof.
  split; [| apply hasVariation_vary].
  unfold hasVariation.
  intros [Hin | Hout]%orb_true_iff.
  - apply bool_decide_eq_true in Hin.
    apply size_list_to_set_ge_2 in Hin as (x & y & Hx & Hy & Hne).
    apply list_elem_of_fmap in Hx as (b1 & -> & Hb1).
    apply list_elem_of_fmap in Hy as (b2 & -> & Hb2).
    exists b1, b2. eauto.
  - apply bool_decide_eq_true in Hout.
    apply size_list_to_set_ge_2 in Hout as (x & y & Hx & Hy & Hne).
    apply list_elem_of_fmap in Hx as (b1 & -> & Hb1).
    apply list_elem_of_fmap in Hy as (b2 & -> & Hb2).
    exists b1, b2. eauto.
Qed.

End VariationConverse.

(** ** The keys of a prediction *)

Section Keys.

Lemma mechanistic_e2e_is_Some (predictions : gmap string num) (out : Q) :
  is_Some (calculateE2EMeanMechanistically predictions out !! "e2e_mean").
Proof.
  unfold calculateE2EMeanMechanistically.
  destruct (_ || _); rewrite lookup_insert_eq; eauto.
Qed.

Lemma interpolate_keys (prediction : string → num) (out : Q)
    (traffic : option Q) (k : string) :
  is_Some (interpolate prediction out traffic !! k) ↔ k ∈ metrics.
Proof.
  destruct traffic as [t |].
  - rewrite lookup_interpolate_3D. case_decide; [by split; eauto |].
    split; [by intros [? ?] | done].
  - destruct (decide (k = "e2e_mean")) as [-> | Hne].
    + split; [intros _; set_solver |].
      intros _. unfold interpolate.
      cbn [bool_decide decide_rel negb is_Some_dec].
      apply mechanistic_e2e_is_Some.
    + rewrite lookup_interpolate_2D by done.
      case_decide; [by split; eauto |]. split; [by intros [? ?] | done].
Qed.

Lemma performSimpleAveraging_keys (benchmarks : list BenchmarkRow)
    (k : string) :
  is_Some (performSimpleAveraging benchmarks !! k) ↔ k ∈ metrics.
Proof.
  unfold performSimpleAveraging. rewrite lookup_assign_each, lookup_empty.
  case_decide; [by split; eauto |]. split; [by intros [? ?] | done].
Qed.

End Keys.

(** ** The envelope of the scorer *)

Section Envelope.

Implicit Types (xs : list Q) (benchmarks : list BenchmarkRow).

(** The minimum and the maximum of a non-empty list are elements of it. *)
Lemma foldl_Qmin_elem xs (a : Q) :
  foldl Qmin a xs = a ∨ foldl Qmin a xs ∈ xs.
Proof.
  revert a. induction xs as [| y xs IH]; intros a; cbn [foldl]; [by left |].
  destruct (IH (Qmin a y)) as [-> | Hin]; [| right; by right].
  destruct (Q.min_spec a y) as [[_ Hmin] | [_ Hmin]];
    unfold Qmin, GenericMinMax.gmin in *; destruct (a ?= y);
    first [by left | right; by left].
Qed.

Lemma foldl_Qmax_elem xs (a : Q) :
  foldl Qmax a xs = a ∨ foldl Qmax a xs ∈ xs.
Proof.
  revert a. induction xs as [| y xs IH]; intros a; cbn [foldl]; [by left |].
  destruct (IH (Qmax a y)) as [-> | Hin]; [| right; by right].
  unfold Qmax, GenericMinMax.gmax; destruct (a ?= y);
    first [by left | right; by left].
Qed.

Lemma min_of_elem xs : xs ≠ [] → min_of xs ∈ xs.
Proof.
  destruct xs as [| a xs]; [done |]. intros _. cbn [min_of].
  destruct (foldl_Qmin_elem xs a) as [-> | Hin]; [by left | by right].
Qed.

Lemma max_of_elem xs : xs ≠ [] → max_of xs ∈ xs.
Proof.
  destruct xs as [| a xs]; [done |]. intros _. cbn [max_of].
  destruct (foldl_Qmax_elem xs a) as [-> | Hin]; [by left | by right].
Qed.

(** On a non-empty set [isExtrapolating] is the negation of "inside the
    envelope" and equivalent to "outside the envelope". *)
Lemma isExtrapolating_inside benchmarks (targetInput targetOutput : Q) :
  inside_envelope benchmarks targetInput targetOutput →
  isExtrapolating benchmarks targetInput targetOutput = false.
Proof.
  intros ((b1 & Hb1 & H1) & (b2 & Hb2 & H2) & (b3 & Hb3 & H3)
          & (b4 & Hb4 & H4)).
  unfold isExtrapolating.
  assert (∀ b, b ∈ benchmarks →
            input_avg_len b ∈ input_avg_len <$> benchmarks) as Hin
    by (intros b Hb; apply list_elem_of_fmap; eauto).
  assert (∀ b, b ∈ benchmarks →
            output_avg_len b ∈ output_avg_len <$> benchmarks) as Hout
    by (intros b Hb; apply list_elem_of_fmap; eauto).
  pose proof (min_of_le _ _ (Hin b1 Hb1)).
  pose proof (max_of_ge _ _ (Hin b2 Hb2)).
  pose proof (min_of_le _ _ (Hout b3 Hb3)).
  pose proof (max_of_ge _ _ (Hout b4 Hb4)).
  rewrite !bool_decide_eq_false_2; [done | lra ..].
Qed.

Lemma isExtrapolating_false_inside benchmarks (targetInput targetOutput : Q) :
  benchmarks ≠ [] →
  isExtrapolating benchmarks targetInput targetOutput = false →
  inside_envelope benchmarks targetInput targetOutput.
Proof.
  intros Hne. unfold isExtrapolating.
  rewrite !orb_false_iff, !bool_decide_eq_false.
  intros [[[H1 H2] H3] H4].
  assert (input_avg_len <$> benchmarks ≠ []) as Hi by (by destruct benchmarks).
  assert (output_avg_len <$> benchmarks ≠ []) as Ho
    by (by destruct benchmarks).
  pose proof (min_of_elem _ Hi) as (b1 & E1 & Hb1)%list_elem_of_fmap.
  pose proof (max_of_elem _ Hi) as (b2 & E2 & Hb2)%list_elem_of_fmap.
  pose proof (min_of_elem _ Ho) as (b3 & E3 & Hb3)%list_elem_of_fmap.
  pose proof (max_of_elem _ Ho) as (b4 & E4 & Hb4)%list_elem_of_fmap.
  repeat split.
  - exists b1. split; [done |]. rewrite <- E1. lra.
  - exists b2. split; [done |]. rewrite <- E2. lra.
  - exists b3. split; [done |]. rewrite <- E3. lra.
  - exists b4. split; [done |]. rewrite <- E4. lra.
Qed.


End Envelope.

(** ** Goodness of fit *)

Section GoodnessOfFit.


Lemma Qsquare_zero (q : Q) : q ^ 2 == 0 → q == 0.
Proof. assert (q ^ 2 == q * q) as -> by (simpl; ring). nra. Qed.

(** A reduce that adds one term per element is the sum of the terms. *)
Lemma foldl_sum_of {A} (h : A → Q) (l : list A) (a : Q) :
  foldl (λ sum x, sum + h x) a l == a + sum_of (h <$> l).
Proof.
  revert a. induction l as [| x l IH]; intros a; cbn [foldl].
  - cbn [fmap list_fmap sum_of]. ring.
  - rewrite IH, fmap_cons. cbn [sum_of]. ring.
Qed.


Lemma sum_of_all_zero {A} (h : A → Q) (l : list A) :
  (∀ x, x ∈ l → h x == 0) → sum_of (h <$> l) == 0.
Proof.
  intros Hz. rewrite (sum_of_fmap_ext_in h (λ _, 0)) by exact Hz.
  induction l as [| x l IH]; cbn [fmap list_fmap sum_of]; [reflexivity |].
  change (list_fmap A Q (λ _ : A, 0) l) with ((λ _ : A, 0) <$> l).
  rewrite IH; [ring |]. intros y Hy. apply Hz. by right.
Qed.



End GoodnessOfFit.

Section PerfectFit.

Context (data : list BenchmarkRow) (metric : string).


(** Without spread in the statistic, R² is 0 for either fit. *)
Lemma calculateR2_no_spread (type : FitType) :
  Qeq_bool (total_sum_of_squares data metric) 0 = true →
  calculateR2 data metric type = 0.
Proof.
  intros Hzero. unfold calculateR2. destruct (decide _); [done |].
  unfold total_sum_of_squares in Hzero. cbv zeta in Hzero.
  by rewrite Hzero.
Qed.


(** A fit that reproduces every observation of a statistic with spread has
    R² = 1. *)
Lemma calculateR2_linear_perfect :
  (2 ≤ length data)%nat →
  Qeq_bool (total_sum_of_squares data metric) 0 = false →
  (∀ d, d ∈ data →
     eval_linear (fitLinearModel data metric) (input_avg_len d)
       (output_avg_len d) == metric_value d metric) →
  calculateR2 data metric fit_linear == 1.
Proof.
  intros Hlen Hspread Hfit. unfold calculateR2.
  rewrite decide_False by lia.
  unfold total_sum_of_squares in Hspread. cbv zeta in Hspread.
  rewrite Hspread.
  set (yActual := (λ d, metric_value d metric) <$> data).
  set (yPredicted := (λ d, eval_linear _ _ _) <$> data).
  assert (foldl (λ sum iy, sum + (iy.2 - at_index yPredicted iy.1) ^ 2) 0
            (imap pair yActual) == 0) as ->.
  { rewrite (foldl_sum_of (λ iy, (iy.2 - at_index yPredicted iy.1) ^ 2)).
    rewrite Qplus_0_l. apply sum_of_all_zero.
    intros [i y] Hiy. cbn [fst snd].
    apply list_elem_of_lookup in Hiy as [j Hj].
    rewrite list_lookup_imap in Hj.
    destruct (yActual !! j) as [y' |] eqn:Hy; [| done].
    cbn in Hj. injection Hj as <- <-.
    subst yActual yPredicted. rewrite list_lookup_fmap in Hy.
    destruct (data !! j) as [d |] eqn:Hd; [| done].
    cbn in Hy. injection Hy as <-.
    unfold at_index. rewrite list_lookup_fmap, Hd. cbn [fmap option_fmap
      option_map default].
    rewrite Hfit by (by eapply list_elem_of_lookup_2).
    assert (metric_value d metric - metric_value d metric == 0) as ->
      by ring.
    reflexivity. }
  unfold Qdiv. rewrite Qmult_0_l.
  reflexivity.
Qed.

End PerfectFit.

Section LinearityDetection.

Context (benchmarks : list BenchmarkRow).

Lemma detectLinearity_no_spread :
  Qeq_bool (total_sum_of_squares benchmarks "ttft_mean") 0 = true →
  detectLinearity benchmarks = true.
Proof.
  intros Hzero. unfold detectLinearity.
  by rewrite !calculateR2_no_spread.
Qed.


Lemma detectLinearity_on_plane (a b c : Q) :
  on_plane a b c benchmarks "ttft_mean" →
  1e-10 < Qabs (linear_denom benchmarks "ttft_mean") →
  detectLinearity benchmarks = true.
Proof.
  intros Hplane Hdet.
  destruct (Qeq_bool (total_sum_of_squares benchmarks "ttft_mean") 0)
    eqn:Hspread; [by apply detectLinearity_no_spread |].
  destruct (decide (length benchmarks < 2)%nat) as [Hfew | Hlen].
  - unfold detectLinearity, calculateR2. by rewrite !decide_True.
  - destruct (fitLinearModel_on_plane benchmarks "ttft_mean" a b c Hplane
                Hdet) as (Ha & Hb & Hc).
    assert (calculateR2 benchmarks "ttft_mean" fit_linear == 1) as Hone.
    { apply calculateR2_linear_perfect; [lia | done |].
      intros d Hd. unfold eval_linear. rewrite Ha, Hb, Hc.
      symmetry. by apply Hplane. }
    unfold detectLinearity. apply orb_true_iff. right.
    apply bool_decide_eq_true. rewrite Hone. reflexivity.
Qed.

End LinearityDetection.

(** ** The singular cases of the linear fit *)

Section SingularFit.

Context (data : list BenchmarkRow) (targetMetric : string).

Let n := length_Q data.
Let meanX1 := sumX1 (linear_sums data targetMetric) / n.
Let meanX2 := sumX2 (linear_sums data targetMetric) / n.
Let meanY := sumY (linear_sums data targetMetric) / n.
Let m := linear_moments data targetMetric.

(** The means the fit uses are the arithmetic means of the columns. *)
Lemma linear_means :
  meanX1 == arithmetic_mean (input_avg_len <$> data)
  ∧ meanX2 == arithmetic_mean (output_avg_len <$> data)
  ∧ meanY == arithmetic_mean ((λ p, metric_value p targetMetric) <$> data).
Proof.
  destruct (foldl_sums_step data targetMetric
              {| sumX1 := 0; sumX2 := 0; sumY := 0; sumX1X1 := 0;
                 sumX2X2 := 0; sumX1X2 := 0; sumX1Y := 0; sumX2Y := 0 |})
    as (H1 & H2 & H3).
  fold (linear_sums data targetMetric) in H1, H2, H3.
  cbn [sumX1 sumX2 sumY] in H1, H2, H3.
  subst meanX1 meanX2 meanY n. unfold arithmetic_mean.
  rewrite !length_Q_fmap, H1, H2, H3, !Qplus_0_l. done.
Qed.

(** The moments are the centred sums of products. *)
Lemma linear_moments_sums :
  let dx1 p := input_avg_len p - meanX1 in
  let dx2 p := output_avg_len p - meanX2 in
  let dy p := metric_value p targetMetric - meanY in
  varX1 m == sum_of ((λ p, dx1 p * dx1 p) <$> data)
  ∧ varX2 m == sum_of ((λ p, dx2 p * dx2 p) <$> data)
  ∧ covX1X2 m == sum_of ((λ p, dx1 p * dx2 p) <$> data)
  ∧ covX1Y m == sum_of ((λ p, dx1 p * dy p) <$> data)
  ∧ covX2Y m == sum_of ((λ p, dx2 p * dy p) <$> data).
Proof.
  intros dx1 dx2 dy.
  destruct (foldl_moments_step data targetMetric meanX1 meanX2 meanY
              {| varX1 := 0; varX2 := 0; covX1X2 := 0; covX1Y := 0;
                 covX2Y := 0 |})
    as (H1 & H2 & H3 & H4 & H5).
  cbn [varX1 varX2 covX1X2 covX1Y covX2Y] in H1, H2, H3, H4, H5.
  rewrite !Qplus_0_l in H1, H2, H3, H4, H5. done.
Qed.

(** The intercept makes the fitted plane pass through the mean point. *)
Lemma fitLinearModel_intercept :
  let coeffs := fitLinearModel data targetMetric in
  Linear.intercept coeffs
  = meanY - Linear.inputCoeff coeffs * meanX1
    - Linear.outputCoeff coeffs * meanX2.
Proof.
  unfold fitLinearModel. cbv zeta.
  by destruct (decide (1e-10 < _)).
Qed.




End SingularFit.

(** ** The Gauss-Seidel solver *)

Section Solver.

Implicit Types (X XtX : list (list Q)) (y Xty coeffs : list Q) (i j m : nat).

Lemma length_gauss_seidel_update XtX Xty m coeffs i :
  length (gauss_seidel_update XtX Xty m coeffs i) = length coeffs.
Proof.
  unfold gauss_seidel_update. destruct (decide _); [| done].
  apply length_insert.
Qed.

Lemma length_sweep XtX Xty m coeffs (rows : list nat) :
  length (foldl (gauss_seidel_update XtX Xty m) coeffs rows) = length coeffs.
Proof.
  revert coeffs. induction rows as [| i rows IH]; intros coeffs; [done |].
  cbn [foldl]. by rewrite IH, length_gauss_seidel_update.
Qed.

Lemma length_sweeps {A} XtX Xty m coeffs (rows : list nat) (iters : list A) :
  length (foldl (λ coeffs _, foldl (gauss_seidel_update XtX Xty m) coeffs rows)
            coeffs iters)
  = length coeffs.
Proof.
  revert coeffs. induction iters as [| k iters IH]; intros coeffs; [done |].
  cbn [foldl]. by rewrite IH, length_sweep.
Qed.

Lemma at_index_all_zero (l : list Q) i : all_zero l → at_index l i == 0.
Proof.
  intros Hl. unfold at_index. destruct (l !! i) as [c |] eqn:Hc; [| done].
  cbn. unfold all_zero in Hl. rewrite Forall_lookup in Hl.
  exact (Hl i c Hc).
Qed.

(** With all coefficients at 0 the inner loop leaves [sum] as it was. *)
Lemma skip_sum_all_zero (f : nat → Q) coeffs i (s0 : Q) (cols : list nat) :
  all_zero coeffs →
  foldl (λ sum j,
           if decide (i ≠ j) then sum - f j * at_index coeffs j else sum)
        s0 cols == s0.
Proof.
  intros Hz. revert s0. induction cols as [| j cols IH]; intros s0;
    cbn [foldl]; [reflexivity |].
  rewrite IH. destruct (decide (i ≠ j)); [| reflexivity].
  rewrite (at_index_all_zero coeffs j Hz). ring.
Qed.

Lemma gauss_seidel_update_all_zero XtX Xty m coeffs i :
  all_zero Xty → all_zero coeffs →
  all_zero (gauss_seidel_update XtX Xty m coeffs i).
Proof.
  intros HXty Hz. unfold gauss_seidel_update.
  destruct (decide _); [| done].
  apply Forall_insert; [done |].
  rewrite (skip_sum_all_zero (λ j, entry XtX i j)) by done.
  rewrite (at_index_all_zero Xty i HXty). unfold Qdiv. ring.
Qed.

Lemma sweep_all_zero XtX Xty m coeffs (rows : list nat) :
  all_zero Xty → all_zero coeffs →
  all_zero (foldl (gauss_seidel_update XtX Xty m) coeffs rows).
Proof.
  intros HXty. revert coeffs.
  induction rows as [| i rows IH]; intros coeffs Hz; [done |].
  cbn [foldl]. by apply IH, gauss_seidel_update_all_zero.
Qed.

Lemma Xty_entry_all_zero X y i : all_zero y → Xty_entry X y i == 0.
Proof.
  intros Hy. unfold Xty_entry.
  rewrite (foldl_sum_of (λ k, entry X k i * at_index y k)), Qplus_0_l.
  apply sum_of_all_zero. intros k _.
  rewrite (at_index_all_zero y k Hy). ring.
Qed.

(** All-zero targets give all-zero coefficients. *)
Lemma solvePolynomial_all_zero X y :
  all_zero y → all_zero (solvePolynomial X y).
Proof.
  intros Hy. unfold solvePolynomial. cbv zeta.
  set (m := length (default [] (X !! 0%nat))).
  set (XtX := (λ i, (λ j, XtX_entry X i j) <$> seq 0 m) <$> seq 0 m).
  set (Xty := (λ i, Xty_entry X y i) <$> seq 0 m).
  assert (all_zero Xty) as HXty.
  { apply Forall_fmap, Forall_forall. intros i _. cbn.
    by apply Xty_entry_all_zero. }
  assert (all_zero (replicate m 0)) as Hinit.
  { apply Forall_forall. intros c Hc%elem_of_replicate. destruct Hc as [-> _].
    reflexivity. }
  generalize (seq 0 100). revert Hinit. generalize (replicate m 0).
  intros coeffs Hz iters. revert coeffs Hz.
  induction iters as [| k iters IH]; intros coeffs Hz; [done |].
  cbn [foldl]. by apply IH, sweep_all_zero.
Qed.


End Solver.

(** ** A statistic that is 0 everywhere *)

Section ZeroColumn.

Context (data : list BenchmarkRow) (metric : string).
Hypothesis zero : zero_column data metric.

Lemma zero_column_targets :
  all_zero ((λ point, metric_value point metric) <$> data).
Proof using zero.
  apply Forall_fmap, Forall_forall. intros p Hp. cbn. by apply zero.
Qed.

Lemma fitLinearModel3D_zero_column (targetInput targetOutput traffic : Q) :
  eval_linear3D (fitLinearModel3D data metric) targetInput targetOutput
    traffic == 0.
Proof using zero.
  unfold eval_linear3D, fitLinearModel3D. cbv zeta.
  pose proof (solvePolynomial_all_zero (linear3D_row <$> data) _
                zero_column_targets) as Hz.
  revert Hz. generalize (solvePolynomial (linear3D_row <$> data)
      ((λ point, metric_value point metric) <$> data)).
  intros coeffs Hz. cbn. rewrite !(at_index_all_zero coeffs _ Hz). ring.
Qed.

Lemma fitPolynomialModel_zero_column (targetInput targetOutput : Q) :
  eval_poly (fitPolynomialModel data metric) targetInput targetOutput == 0.
Proof using zero.
  unfold eval_poly, fitPolynomialModel. cbv zeta.
  pose proof (solvePolynomial_all_zero (poly_row <$> data) _
                zero_column_targets) as Hz.
  revert Hz. generalize (solvePolynomial (poly_row <$> data)
      ((λ point, metric_value point metric) <$> data)).
  intros coeffs Hz. cbn. rewrite !(at_index_all_zero coeffs _ Hz). ring.
Qed.

Lemma fitPolynomialModel3D_zero_column
    (targetInput targetOutput traffic : Q) :
  eval_poly3D (fitPolynomialModel3D data metric) targetInput targetOutput
    traffic == 0.
Proof using zero.
  unfold eval_poly3D, fitPolynomialModel3D. cbv zeta.
  pose proof (solvePolynomial_all_zero (poly3D_row <$> data) _
                zero_column_targets) as Hz.
  revert Hz. generalize (solvePolynomial (poly3D_row <$> data)
      ((λ point, metric_value point metric) <$> data)).
  intros coeffs Hz. cbn. rewrite !(at_index_all_zero coeffs _ Hz). ring.
Qed.

Lemma fitLinearModel_zero_column (targetInput targetOutput : Q) :
  eval_linear (fitLinearModel data metric) targetInput targetOutput == 0.
Proof using zero.
  destruct (linear_means data metric) as (_ & _ & Hm3).
  destruct (linear_moments_sums data metric) as (_ & _ & _ & Hc1y & Hc2y).
  cbv zeta in Hm3, Hc1y, Hc2y.
  set (m := linear_moments data metric) in *.
  set (mx1 := sumX1 (linear_sums data metric) / length_Q data) in *.
  set (mx2 := sumX2 (linear_sums data metric) / length_Q data) in *.
  set (my := sumY (linear_sums data metric) / length_Q data) in *.
  assert (my == 0) as Hmy.
  { rewrite Hm3. unfold arithmetic_mean.
    rewrite sum_of_all_zero by exact zero. unfold Qdiv. ring. }
  assert (covX1Y m == 0) as H1.
  { rewrite Hc1y. apply sum_of_all_zero. intros p Hp.
    rewrite (zero p Hp), Hmy. ring. }
  assert (covX2Y m == 0) as H2.
  { rewrite Hc2y. apply sum_of_all_zero. intros p Hp.
    rewrite (zero p Hp), Hmy. ring. }
  assert (Linear.inputCoeff (fitLinearModel data metric) == 0
          ∧ Linear.outputCoeff (fitLinearModel data metric) == 0)
    as (Hic & Hoc).
  { unfold fitLinearModel. cbv zeta. fold m.
    destruct (decide (1e-10 < _)); cbn.
    - rewrite H1, H2. unfold Qdiv. split; ring.
    - split; destruct (decide _); rewrite ?H1, ?H2; unfold Qdiv;
        first [ring | reflexivity]. }
  unfold eval_linear. rewrite fitLinearModel_intercept. fold mx1 mx2 my.
  rewrite Hic, Hoc, Hmy. ring.
Qed.

(** Every fitter predicts 0 for the statistic. *)
Lemma regressed_value_zero_column (type : FitType)
    (targetInput targetOutput : Q) (targetTraffic : option Q) :
  ∃ v, regressed_value type data targetInput targetOutput targetTraffic
         metric = Fin v ∧ v == 0.
Proof using zero.
  destruct type, targetTraffic as [traffic |]; cbn; eexists;
    (split; [reflexivity |]).
  - rewrite fitLinearModel3D_zero_column. reflexivity.
  - rewrite fitLinearModel_zero_column. reflexivity.
  - rewrite fitPolynomialModel3D_zero_column. reflexivity.
  - rewrite fitPolynomialModel_zero_column. reflexivity.
Qed.

Lemma simple_average_zero_column :
  foldl Qplus 0 ((λ b, metric_value b metric) <$> data)
  / length_Q ((λ b, metric_value b metric) <$> data) == 0.
Proof using zero.
  rewrite foldl_Qplus_sum_of, Qplus_0_l.
  rewrite sum_of_all_zero by exact zero. unfold Qdiv. ring.
Qed.

End ZeroColumn.

(** ** One Gauss-Seidel update solves its own equation *)

Section GaussSeidelStep.

Implicit Types (XtX : list (list Q)) (Xty coeffs : list Q) (i j m : nat).

Lemma sum_of_plus {A} (f g : A → Q) (l : list A) :
  sum_of ((λ x, f x + g x) <$> l) == sum_of (f <$> l) + sum_of (g <$> l).
Proof.
  induction l as [| x l IH].
  - cbn [fmap list_fmap sum_of]. ring.
  - rewrite !fmap_cons. cbn [sum_of]. rewrite IH. ring.
Qed.

(** A term that is present at one index only. *)
Lemma sum_of_indicator (k : Q) i (a n : nat) :
  sum_of ((λ j, if decide (i = j) then k else 0) <$> seq a n)
  == if decide (a ≤ i < a + n)%nat then k else 0.
Proof.
  revert a. induction n as [| n IH]; intros a.
  - cbn [seq fmap list_fmap sum_of]. rewrite decide_False by lia. reflexivity.
  - cbn [seq]. rewrite fmap_cons. cbn [sum_of]. rewrite IH.
    destruct (decide (i = a)) as [-> | Hne].
    + rewrite decide_False by lia. rewrite decide_True by lia. ring.
    + destruct (decide (S a ≤ i < S a + n)%nat).
      * rewrite decide_True by lia. ring.
      * rewrite decide_False by lia. ring.
Qed.

(** The inner loop subtracts every term but the one of the diagonal. *)
Lemma skip_sum (f : nat → Q) i (s0 : Q) (cols : list nat) :
  foldl (λ sum j, if decide (i ≠ j) then sum - f j else sum) s0 cols
  == s0 - sum_of ((λ j, if decide (i ≠ j) then f j else 0) <$> cols).
Proof.
  revert s0. induction cols as [| j cols IH]; intros s0; cbn [foldl].
  - cbn [fmap list_fmap sum_of]. ring.
  - rewrite IH, fmap_cons. cbn [sum_of].
    destruct (decide (i ≠ j)); ring.
Qed.

Lemma at_index_insert coeffs i j (v : Q) :
  (i < length coeffs)%nat →
  at_index (<[i := v]> coeffs) j
  = if decide (i = j) then v else at_index coeffs j.
Proof.
  intros Hi. unfold at_index. destruct (decide (i = j)) as [-> | Hne].
  - by rewrite list_lookup_insert_eq.
  - by rewrite list_lookup_insert_ne.
Qed.

(** After the update of coefficient [i], row [i] of the system holds
    exactly. *)
Lemma gauss_seidel_update_row XtX Xty m coeffs i :
  (i < m)%nat → length coeffs = m →
  1e-10 < Qabs (entry XtX i i) →
  sum_of ((λ j, entry XtX i j
                * at_index (gauss_seidel_update XtX Xty m coeffs i) j)
          <$> seq 0 m)
  == at_index Xty i.
Proof.
  intros Hi Hlen Hdiag. unfold gauss_seidel_update.
  rewrite decide_True by done.
  set (sum := foldl _ (at_index Xty i) (seq 0 m)).
  assert (sum == at_index Xty i
                 - sum_of ((λ j, if decide (i ≠ j)
                                 then entry XtX i j * at_index coeffs j
                                 else 0) <$> seq 0 m)) as Hsum
    by apply (skip_sum (λ j, entry XtX i j * at_index coeffs j)).
  assert (¬ entry XtX i i == 0) as Hnz.
  { intros Hz. rewrite Hz in Hdiag. revert Hdiag. discriminate. }
  rewrite (sum_of_fmap_ext_in _
             (λ j, (if decide (i ≠ j)
                    then entry XtX i j * at_index coeffs j else 0)
                   + (if decide (i = j)
                      then entry XtX i i * (sum / entry XtX i i) else 0))).
  - rewrite sum_of_plus, sum_of_indicator.
    rewrite decide_True by lia. rewrite Hsum. field. exact Hnz.
  - intros j _. rewrite at_index_insert by lia.
    destruct (decide (i = j)) as [<- | Hne].
    + rewrite decide_False by (intros H; by apply H). ring.
    + rewrite decide_True by done. ring.
Qed.

(** The matrices [solvePolynomial] builds, read inside their bounds. *)
Lemma entry_normal_matrix (f : nat → nat → Q) m i j :
  (i < m)%nat → (j < m)%nat →
  entry ((λ i, (λ j, f i j) <$> seq 0 m) <$> seq 0 m) i j = f i j.
Proof.
  intros Hi Hj. unfold entry, at_index.
  rewrite list_lookup_fmap, lookup_seq_lt by done. cbn.
  by rewrite list_lookup_fmap, lookup_seq_lt.
Qed.

Lemma at_index_normal_vector (f : nat → Q) m i :
  (i < m)%nat → at_index (f <$> seq 0 m) i = f i.
Proof.
  intros Hi. unfold at_index.
  by rewrite list_lookup_fmap, lookup_seq_lt.
Qed.

End GaussSeidelStep.

(** ** More on the mechanistic deriver *)

Section Deriver.

Implicit Types (predictions : gmap string num).

Lemma safeDivide_finite (numerator : num) (denominator : option num)
    (fallback : Q) :
  ∃ r, safeDivide numerator denominator (Fin fallback) = Fin r.
Proof.
  unfold safeDivide. destruct (_ || _); [by eexists |].
  destruct (div numerator (toNumber denominator)) as [r | | |];
    by eexists.
Qed.

(** The generation time is always a finite number. *)
Lemma generation_time_finite predictions (outputTokens : Q) :
  ∃ g, mul (safeDivide (Fin outputTokens) (predictions !! "user_tps_mean")
              (mul (Fin outputTokens) (Fin 10))) (Fin 1000) = Fin g.
Proof.
  cbn [mul].
  destruct (safeDivide_finite (Fin outputTokens)
              (predictions !! "user_tps_mean") (outputTokens * 10))
    as [r ->].
  by eexists.
Qed.

Lemma mechanistic_finiteness predictions (outputTokens : Q) :
  isFinite
    (toNumber
       (calculateE2EMeanMechanistically predictions outputTokens
          !! "e2e_mean"))
  = isFinite (toNumber (predictions !! "ttft_mean")).
Proof.
  unfold calculateE2EMeanMechanistically.
  destruct (generation_time_finite predictions outputTokens) as [g Hg].
  rewrite Hg, lookup_insert_eq.
  rewrite (lookup_insert_ne predictions "e2e_mean" "ttft_mean") by done.
  destruct (predictions !! "ttft_mean") as [[t | | |] |];
    unfold toNumber, default, id;
    cbn [from_option add mul isFinite negb orb];
    [destruct (ltb _ _) | ..]; by rewrite ?lookup_insert_eq.
Qed.

Lemma mechanistic_nan predictions (outputTokens : Q) :
  toNumber (predictions !! "ttft_mean") = NaN →
  calculateE2EMeanMechanistically predictions outputTokens !! "e2e_mean"
  = Some NaN.
Proof.
  intros Ht. unfold calculateE2EMeanMechanistically.
  destruct (generation_time_finite predictions outputTokens) as [g Hg].
  rewrite Hg, lookup_insert_eq.
  rewrite (lookup_insert_ne predictions "e2e_mean" "ttft_mean") by done.
  rewrite Ht. unfold toNumber, default, id.
  cbn [from_option add isFinite negb orb]. by rewrite ?lookup_insert_eq.
Qed.

End Deriver.

Section MechanisticValue.

Context (type : FitType) (benchmarks : list BenchmarkRow).
Context (targetInput targetOutput : Q).


End MechanisticValue.

(** ** What a 2-feature regression reads *)

Section TwoFeatureInputs.

Implicit Types (data : list BenchmarkRow) (metric : string).

Lemma metric_value_same (b b' : BenchmarkRow) metric :
  same_for_two_features b b' → metric ≠ "e2e_mean" →
  metric_value b metric = metric_value b' metric.
Proof.
  intros (_ & _ & Hstats) Hne. unfold metric_value. by rewrite Hstats.
Qed.

Lemma foldl_related {S} (R : BenchmarkRow → BenchmarkRow → Prop)
    (step : S → BenchmarkRow → S) data data' (s : S) :
  Forall2 R data data' →
  (∀ b b' s, R b b' → step s b = step s b') →
  foldl step s data = foldl step s data'.
Proof.
  intros Hrel Hstep. revert s.
  induction Hrel as [| b b' data data' Hb _ IH]; intros s; [done |].
  cbn [foldl]. by rewrite (Hstep b b' s Hb), IH.
Qed.

Lemma fitLinearModel_same data data' metric :
  Forall2 same_for_two_features data data' → metric ≠ "e2e_mean" →
  fitLinearModel data metric = fitLinearModel data' metric.
Proof.
  intros Hrel Hne.
  assert (length_Q data = length_Q data') as Hlen
    by (unfold length_Q; by rewrite (Forall2_length _ _ _ Hrel)).
  assert (linear_sums data metric = linear_sums data' metric) as Hsums.
  { unfold linear_sums.
    apply (foldl_related same_for_two_features); [done |].
    intros b b' s Hb. unfold sums_step.
    rewrite (metric_value_same b b' metric Hb Hne).
    destruct Hb as (-> & -> & _). done. }
  assert (linear_moments data metric = linear_moments data' metric) as Hmom.
  { unfold linear_moments. rewrite Hsums, Hlen.
    apply (foldl_related same_for_two_features); [done |].
    intros b b' s Hb. unfold moments_step.
    rewrite (metric_value_same b b' metric Hb Hne).
    destruct Hb as (-> & -> & _). done. }
  unfold fitLinearModel, linear_denom. by rewrite Hsums, Hmom, Hlen.
Qed.

Lemma fitPolynomialModel_same data data' metric :
  Forall2 same_for_two_features data data' → metric ≠ "e2e_mean" →
  fitPolynomialModel data metric = fitPolynomialModel data' metric.
Proof.
  intros Hrel Hne. unfold fitPolynomialModel.
  assert (poly_row <$> data = poly_row <$> data'
          ∧ (λ point, metric_value point metric) <$> data
            = (λ point, metric_value point metric) <$> data') as [-> ->];
    [| done].
  induction Hrel as [| b b' data data' Hb _ [IH1 IH2]]; [done |].
  rewrite !fmap_cons, IH1, IH2, (metric_value_same b b' metric Hb Hne).
  unfold poly_row. destruct Hb as (-> & -> & _). done.
Qed.

Lemma assign_each_ext (value value' : string → num) (names : list string)
    (predictions : gmap string num) :
  (∀ k, k ∈ names → value k = value' k) →
  assign_each value names predictions = assign_each value' names predictions.
Proof.
  unfold assign_each. revert predictions.
  induction names as [| name names IH]; intros predictions Hext; [done |].
  cbn [foldl]. rewrite (Hext name) by (by left).
  apply IH. intros k Hk. apply Hext. by right.
Qed.

(** Without a traffic level the routine never evaluates the regression of
    [e2e_mean]. *)
Lemma interpolate_2D_ext (prediction prediction' : string → num) (out : Q) :
  (∀ k, k ≠ "e2e_mean" → prediction k = prediction' k) →
  interpolate prediction out None = interpolate prediction' out None.
Proof.
  intros Hext. unfold interpolate.
  cbn [bool_decide decide_rel negb is_Some_dec].
  rewrite (Hext "throughput") by done.
  rewrite (assign_each_ext prediction prediction' ttftMetrics),
    (assign_each_ext prediction prediction' tpsMetrics),
    (assign_each_ext prediction prediction' e2eRegressionMetrics);
    [done | ..];
    intros k Hk; apply Hext; intros ->;
    apply list_elem_of_In in Hk; simpl in Hk;
    repeat (destruct Hk as [Hk | Hk]; [discriminate |]); done.
Qed.

End TwoFeatureInputs.

(** * Claims of the specification *)

(** ** Mechanistic end-to-end mean *)

(** C1.  The specification says that a predicted [user_tps_mean] that is
    non-positive, non-finite or absent makes the deriver fall back to 0.1
    tokens per millisecond, that is [e2e_mean = ttft_mean + output_tokens *
    10].  The source passes [outputTokens * 10] as the fallback of
    [safeDivide] and then multiplies the quotient by 1000, so on a
    non-negative [ttft_mean] and a positive token count the derived mean is
    [ttft_mean + output_tokens * 10000], which is not the specified value. *)
Theorem mechanistic_fallback_scaled predictions outputTokens (t : Q) :
  predictions !! "ttft_mean" = Some (Fin t) →
  unusable_rate (predictions !! "user_tps_mean") →
  0 <= t → 0 < outputTokens →
  ∃ e2e,
    calculateE2EMeanMechanistically predictions outputTokens !! "e2e_mean"
    = Some (Fin e2e)
    ∧ e2e == t + outputTokens * 10000
    ∧ ¬ e2e == t + outputTokens * 10.
Proof.
  intros Ht Hu Ht0 Ho. eexists. split.
  - apply mechanistic_unusable; [done | done | done | lra].
  - split; lra.
Qed.

(** The failing input of C1: [ttft_mean = 100], [user_tps_mean = 0] and 200
    output tokens give 2000100 ms where the specification says 2100 ms. *)
Lemma mechanistic_fallback_scaled_at_zero_rate :
  let predictions : gmap string num :=
    {[ "ttft_mean" := Fin 100; "user_tps_mean" := Fin 0 ]} in
  ∃ e2e,
    calculateE2EMeanMechanistically predictions 200 !! "e2e_mean"
    = Some (Fin e2e)
    ∧ e2e == 2000100
    ∧ ¬ e2e == 2100.
Proof.
  intros predictions.
  destruct (mechanistic_fallback_scaled predictions 200 100)
    as (e2e & He & Hv & Hn).
  - reflexivity.
  - change (predictions !! "user_tps_mean") with (Some (Fin 0)).
    apply rate_nonpositive. lra.
  - lra.
  - lra.
  - exists e2e. split; [exact He |]. split; lra.
Defined.

(** The same defect reached through [predictPerformance]: two benchmarks
    without a [user_tps_mean] column and a linear request for 200 output
    tokens. *)
Example mechanistic_fallback_through_linear :
  let benchmarks :=
    [row 100 100 None [("ttft_mean", 100)];
     row 200 300 None [("ttft_mean", 100)]] in
  ∃ result e2e,
    predictPerformance benchmarks (request 150 200 None (Some linear))
    = Some result
    ∧ interpolation_method result = "multivariate_linear"
    ∧ predictions result !! "e2e_mean" = Some (Fin e2e)
    ∧ e2e == 2000100.
Proof.
  eexists. eexists. split; [reflexivity |].
  split; [reflexivity |]. split; [vm_compute; reflexivity | reflexivity].
Qed.



(** ** Traffic level *)



(** ** Method selection *)

(** C3.  For a non-empty set of benchmarks and any requested method, the
    method the result reports is never polynomial when there are fewer than
    3 benchmarks, and is the average (or [auto_simple_average]) when there
    are fewer than 2 or when the rounded input and output token values show
    no variation.  This holds of [predictPerformance] and of
    [predictAutoDetect] on its own. *)
Theorem resolved_method_respects_data benchmarks request :
  benchmarks ≠ [] →
  (∃ result,
     predictPerformance benchmarks request = Some result
     ∧ respects_data_sufficiency benchmarks result)
  ∧ respects_data_sufficiency benchmarks
      (predictAutoDetect benchmarks request).
Proof.
  intros Hne. split.
  - by apply predictPerformance_respects.
  - by apply predictAutoDetect_respects.
Qed.

(** Two benchmarks and a polynomial request. *)
Lemma resolved_method_respects_data_two_rows :
  let benchmarks := [row 100 50 None []; row 200 50 None []] in
  let request := request 150 50 None (Some polynomial) in
  benchmarks ≠ []
  ∧ (∃ result,
       predictPerformance benchmarks request = Some result
       ∧ respects_data_sufficiency benchmarks result)
  ∧ respects_data_sufficiency benchmarks
      (predictAutoDetect benchmarks request).
Proof.
  intros benchmarks request.
  assert (benchmarks ≠ []) as Hne by discriminate.
  split; [exact Hne |].
  exact (resolved_method_respects_data benchmarks request Hne).
Defined.

(** C7, as stated: two benchmarks that differ in input tokens, 100.2 against
    100.4, and a polynomial request.  Both inputs round to 100, so the set
    shows no variation and the request resolves to the average, not to the
    linear method. *)
Lemma polynomial_on_two_close_rows_is_average :
  let b1 := row 100.2 50 None [] in
  let b2 := row 100.4 50 None [] in
  let request := request 100 50 None (Some polynomial) in
  ¬ input_avg_len b1 == input_avg_len b2
  ∧ ∃ result,
      predictPerformance [b1; b2] request = Some result
      ∧ interpolation_method result = "simple_average"
      ∧ interpolation_method result ≠ "multivariate_linear".
Proof.
  intros b1 b2 request. split; [discriminate |].
  eexists. split; [reflexivity |]. split; [reflexivity | discriminate].
Qed.

(** C7, amended.  With exactly 2 benchmarks whose rounded input tokens or
    rounded output tokens differ, a polynomial request resolves to the
    linear method. *)
Theorem polynomial_on_two_rows_is_linear (b1 b2 : BenchmarkRow) request :
  req_method request = Some polynomial →
  round (input_avg_len b1) ≠ round (input_avg_len b2)
  ∨ round (output_avg_len b1) ≠ round (output_avg_len b2) →
  ∃ result,
    predictPerformance [b1; b2] request = Some result
    ∧ interpolation_method result = "multivariate_linear".
Proof.
  intros Hmethod Hdiff. unfold predictPerformance, effectiveMethod.
  rewrite Hmethod, (hasVariation_two_rows b1 b2 Hdiff). simpl.
  eexists. split; reflexivity.
Qed.

Lemma polynomial_on_two_rows_is_linear_example :
  let b1 := row 100 50 None [] in
  let b2 := row 100 80 None [] in
  let request := request 100 60 None (Some polynomial) in
  req_method request = Some polynomial
  ∧ (round (input_avg_len b1) ≠ round (input_avg_len b2)
     ∨ round (output_avg_len b1) ≠ round (output_avg_len b2))
  ∧ ∃ result,
      predictPerformance [b1; b2] request = Some result
      ∧ interpolation_method result = "multivariate_linear".
Proof.
  intros b1 b2 request.
  assert (req_method request = Some polynomial) as Hmethod by reflexivity.
  assert (round (input_avg_len b1) ≠ round (input_avg_len b2)
          ∨ round (output_avg_len b1) ≠ round (output_avg_len b2)) as Hdiff
    by (right; discriminate).
  split; [exact Hmethod |]. split; [exact Hdiff |].
  exact (polynomial_on_two_rows_is_linear b1 b2 request Hmethod Hdiff).
Defined.

(** ** The average fitter *)

(** C6.  On a non-empty set of benchmarks, the average fitter predicts for
    each of the 25 statistics the arithmetic mean of its column (a missing
    value counts as 0), predicts the same for every request, and reports
    low confidence. *)
Theorem average_fitter benchmarks request :
  benchmarks ≠ [] →
  let result := predictWithAverage benchmarks request in
  (∀ metric, metric ∈ metrics →
     ∃ v, predictions result !! metric = Some (Fin v)
          ∧ v == arithmetic_mean (column benchmarks metric))
  ∧ (∀ request',
       predictions (predictWithAverage benchmarks request')
       = predictions result)
  ∧ confidence result = low.
Proof.
  intros _ result. split; [| done].
  intros metric Hin. eexists.
  split; [by apply lookup_performSimpleAveraging |].
  apply simple_average_is_mean.
Qed.

(** The example of the specification: [ttft_mean] 100 and 200 average to
    150. *)
Lemma average_fitter_150 :
  let benchmarks :=
    [row 128 64 None [("ttft_mean", 100)];
     row 256 64 None [("ttft_mean", 200)]] in
  let result := predictWithAverage benchmarks (request 512 512 None None) in
  benchmarks ≠ []
  ∧ ∃ v, predictions result !! "ttft_mean" = Some (Fin v) ∧ v == 150.
Proof.
  intros benchmarks result.
  assert (benchmarks ≠ []) as Hne by discriminate.
  split; [exact Hne |].
  destruct (average_fitter benchmarks (request 512 512 None None) Hne)
    as (Hmean & _ & _).
  destruct (Hmean "ttft_mean") as (v & Hv & Heq).
  - apply list_elem_of_In. simpl. tauto.
  - exists v. split; [exact Hv |].
    rewrite Heq. reflexivity.
Defined.

(** ** Non-negative predictions *)




(** ** Confidence *)

(** C9.  On a non-empty set of benchmarks, the scorer rates a target whose
    input and output tokens equal those of a benchmark high (the minimum
    normalized distance is 0 and the target is not extrapolated), and a
    target at normalized distance at least 0.3 from every benchmark and
    outside the observed envelope low. *)
Theorem confidence_high_and_low benchmarks (targetInput targetOutput : Q) :
  benchmarks ≠ [] →
  ((∃ b, b ∈ benchmarks
         ∧ input_avg_len b == targetInput
         ∧ output_avg_len b == targetOutput) →
   (∃ a, minDistance benchmarks targetInput targetOutput = Sqrt a ∧ a == 0)
   ∧ isExtrapolating benchmarks targetInput targetOutput = false
   ∧ calculateConfidence benchmarks targetInput targetOutput = high)
  ∧ ((∀ b, b ∈ benchmarks →
        dist_at_least (distance benchmarks targetInput targetOutput b) 0.3) →
     outside_envelope benchmarks targetInput targetOutput →
     calculateConfidence benchmarks targetInput targetOutput = low).
Proof.
  intros Hne. split.
  - intros (b & Hb & Hin & Hout).
    split; [by apply (minDistance_matching _ _ _ b) |].
    split; [by apply (isExtrapolating_matching _ _ _ b) |].
    by apply (calculateConfidence_matching _ _ _ b).
  - by apply calculateConfidence_far.
Qed.

(** Three benchmarks spanning inputs 0..1 and outputs 0..1: the target
    (1, 0) is a benchmark, the target (5, 5) is far outside. *)
Lemma confidence_high_and_low_three_rows :
  let benchmarks :=
    [row 0 0 None []; row 1 0 None []; row 0 1 None []] in
  benchmarks ≠ []
  ∧ calculateConfidence benchmarks 1 0 = high
  ∧ calculateConfidence benchmarks 5 5 = low.
Proof.
  intros benchmarks.
  assert (benchmarks ≠ []) as Hne by discriminate.
  split; [exact Hne |]. split.
  - apply (proj1 (confidence_high_and_low benchmarks 1 0 Hne)).
    exists (row 1 0 None []). split; [| split; reflexivity].
    apply list_elem_of_In. simpl. tauto.
  - apply (proj2 (confidence_high_and_low benchmarks 5 5 Hne)).
    + intros b Hb. apply list_elem_of_In in Hb. simpl in Hb.
      destruct Hb as [<- | [<- | [<- | []]]]; vm_compute; discriminate.
    + right. left. intros b Hb. apply list_elem_of_In in Hb. simpl in Hb.
      destruct Hb as [<- | [<- | [<- | []]]]; reflexivity.
Defined.

(** ** The traffic feature *)

(** C10.  In the 3-feature linear and polynomial fits, a benchmark whose
    traffic level is exactly 0 is treated as one whose traffic level is
    absent: its traffic feature is 0.5, and exchanging the two leaves both
    fits unchanged. *)
Theorem zero_traffic_level_is_absent data data' (targetMetric : string) :
  Forall2 same_but_zero_traffic data data' →
  (∀ b, b ∈ data → zero_or_absent (traffic_level b) →
        traffic_feature b = 0.5)
  ∧ fitLinearModel3D data targetMetric = fitLinearModel3D data' targetMetric
  ∧ fitPolynomialModel3D data targetMetric
    = fitPolynomialModel3D data' targetMetric.
Proof.
  intros Hsame. split.
  - intros b _. apply traffic_feature_zero_or_absent.
  - destruct (design_same data data' targetMetric Hsame) as (Hl & Hp & Hy).
    unfold fitLinearModel3D, fitPolynomialModel3D.
    by rewrite Hl, Hp, Hy.
Qed.

Lemma zero_traffic_level_is_absent_two_rows :
  let data :=
    [row 100 50 (Some 0) [("e2e_mean", 900)];
     row 200 80 (Some 4) [("e2e_mean", 2500)]] in
  let data' :=
    [row 100 50 None [("e2e_mean", 900)];
     row 200 80 (Some 4) [("e2e_mean", 2500)]] in
  Forall2 same_but_zero_traffic data data'
  ∧ traffic_feature (row 100 50 (Some 0) [("e2e_mean", 900)]) = 0.5
  ∧ fitLinearModel3D data "e2e_mean" = fitLinearModel3D data' "e2e_mean"
  ∧ fitPolynomialModel3D data "e2e_mean"
    = fitPolynomialModel3D data' "e2e_mean".
Proof.
  intros data data'.
  assert (Forall2 same_but_zero_traffic data data') as Hsame.
  { constructor; [| constructor; [| constructor]].
    - split; [reflexivity |]. split; [reflexivity |]. split; [reflexivity |].
      right. split; [reflexivity | exact I].
    - split; [reflexivity |]. split; [reflexivity |]. split; [reflexivity |].
      left. reflexivity. }
  split; [exact Hsame |].
  destruct (zero_traffic_level_is_absent data data' "e2e_mean" Hsame)
    as (Hfeature & Hfits).
  split; [| exact Hfits].
  apply Hfeature; [| reflexivity].
  apply list_elem_of_In. simpl. tauto.
Defined.

(** ** Exactness of the linear fitter *)




(** * Further properties of the prediction engine *)

(** ** Results of [predictPerformance] *)

(** X1.  [predictPerformance] returns no result exactly when there is no
    benchmark; every result it returns echoes the model and the token
    counts of the request and counts all the benchmarks, whichever fitter
    ran. *)
Theorem predictPerformance_bookkeeping benchmarks request :
  (predictPerformance benchmarks request = None ↔ benchmarks = [])
  ∧ ∀ result,
      predictPerformance benchmarks request = Some result →
      model result = req_model request
      ∧ input_tokens result = req_input_tokens request
      ∧ output_tokens result = req_output_tokens request
      ∧ num_benchmarks_used result = length benchmarks.
Proof.
  split.
  - unfold predictPerformance. destruct benchmarks as [| b l]; [done |].
    rewrite decide_False by done. split; intros; discriminate.
  - intros result Hresult.
    destruct (predictPerformance_dispatched benchmarks request)
      as (result' & Hresult' & Hcase).
    { intros ->. discriminate. }
    assert (result' = result) as -> by congruence.
    by destruct Hcase.
Qed.

(** X2.  The method name of a result is one of the three (or one) names of
    the requested method: an explicit request never reports an [auto_]
    name, auto-detection never reports a plain regression name, and
    [auto_simple_average] is never reported. *)
Theorem reported_method_names benchmarks request result :
  predictPerformance benchmarks request = Some result →
  interpolation_method result
  ∈ names_for (default auto_detect (req_method request))
  ∧ interpolation_method result ≠ "auto_simple_average".
Proof.
  unfold predictPerformance. destruct (decide _); [done |].
  intros [= <-]. unfold effectiveMethod, predictAutoDetect.
  destruct (bool_decide (length benchmarks = 1%nat) || _) eqn:Hfew.
  - split; [| done]. destruct (default _ _); set_solver.
  - destruct (default auto_detect (req_method request));
      cbn [bool_decide decide_rel andb];
      repeat (case_bool_decide || case_decide || destruct (detectLinearity _));
      cbn; try done; split; try done; set_solver.
Qed.

Lemma reported_method_names_auto_on_two_rows :
  let benchmarks := [row 100 50 None []; row 200 50 None []] in
  let request := request 150 50 None None in
  ∃ result,
    predictPerformance benchmarks request = Some result
    ∧ interpolation_method result = "auto_linear"
    ∧ interpolation_method result
      ∈ names_for (default auto_detect (req_method request))
    ∧ interpolation_method result ≠ "auto_simple_average".
Proof.
  intros benchmarks request.
  assert (∃ result, predictPerformance benchmarks request = Some result)
    as [result Hresult] by (eexists; reflexivity).
  exists result. split; [exact Hresult |].
  split; [by injection Hresult as <- |].
  exact (reported_method_names benchmarks request result Hresult).
Defined.

(** X3.  With at least 3 benchmarks whose rounded tokens vary, the method
    requested is the method used: an explicit request is reported under
    its own name, and auto-detection reports [auto_linear] or
    [auto_polynomial] according to [detectLinearity]. *)
Theorem sufficient_data_honours_request benchmarks request :
  (3 ≤ length benchmarks)%nat →
  rounded_tokens_vary benchmarks →
  ∃ result,
    predictPerformance benchmarks request = Some result
    ∧ interpolation_method result
      = match default auto_detect (req_method request) with
        | average => "simple_average"
        | linear => "multivariate_linear"
        | polynomial => "polynomial_regression"
        | auto_detect =>
            if detectLinearity benchmarks then "auto_linear"
            else "auto_polynomial"
        end.
Proof.
  intros Hlen Hvary%hasVariation_vary.
  unfold predictPerformance, effectiveMethod, predictAutoDetect.
  rewrite decide_False by (destruct benchmarks; simpl in *; [lia | done]).
  rewrite Hvary.
  rewrite (bool_decide_eq_false_2 (length benchmarks = 1%nat)) by lia.
  rewrite (bool_decide_eq_false_2 (length benchmarks < 3)%nat) by lia.
  eexists. split; [reflexivity |].
  destruct (default auto_detect (req_method request)); cbn; try done.
  rewrite decide_False by lia. by destruct (detectLinearity benchmarks).
Qed.

Lemma sufficient_data_honours_request_polynomial :
  let benchmarks :=
    [row 100 50 None []; row 200 50 None []; row 200 80 None []] in
  let request := request 150 60 None (Some polynomial) in
  (3 ≤ length benchmarks)%nat
  ∧ rounded_tokens_vary benchmarks
  ∧ ∃ result,
      predictPerformance benchmarks request = Some result
      ∧ interpolation_method result = "polynomial_regression".
Proof.
  intros benchmarks request.
  assert (3 ≤ length benchmarks)%nat as Hlen by (simpl; lia).
  assert (rounded_tokens_vary benchmarks) as Hvary.
  { exists (row 100 50 None []), (row 200 50 None []).
    split; [apply list_elem_of_In; simpl; tauto |].
    split; [apply list_elem_of_In; simpl; tauto |].
    left. discriminate. }
  split; [exact Hlen |]. split; [exact Hvary |].
  exact (sufficient_data_honours_request benchmarks request Hlen Hvary).
Defined.

(** X4.  The confidence of a result is [low] when the average fitter ran
    and the score of [calculateConfidence] otherwise: through
    [predictPerformance] the polynomial fitter always has at least 3
    benchmarks, so its override to [low] never fires. *)
Theorem reported_confidence benchmarks request result :
  predictPerformance benchmarks request = Some result →
  confidence result
  = if bool_decide (interpolation_method result = "simple_average") then low
    else calculateConfidence benchmarks (req_input_tokens request)
           (req_output_tokens request).
Proof.
  intros Hresult.
  destruct (predictPerformance_dispatched benchmarks request)
    as (result' & Hresult' & Hcase).
  { intros ->. discriminate. }
  assert (result' = result) as -> by congruence.
  destruct Hcase as [| | Hvar Hlen | | Hvar Hlen Hlin]; cbn; try done;
    rewrite decide_False by lia; done.
Qed.

Lemma reported_confidence_linear_at_benchmark :
  let benchmarks := [row 100 50 None []; row 200 50 None []] in
  let request := request 200 50 None (Some linear) in
  ∃ result,
    predictPerformance benchmarks request = Some result
    ∧ interpolation_method result = "multivariate_linear"
    ∧ confidence result = high.
Proof.
  intros benchmarks request.
  assert (∃ result, predictPerformance benchmarks request = Some result)
    as [result Hresult] by (eexists; reflexivity).
  exists result. split; [exact Hresult |].
  assert (interpolation_method result = "multivariate_linear") as Hname
    by (by injection Hresult as <-).
  split; [exact Hname |].
  rewrite (reported_confidence benchmarks request result Hresult), Hname.
  reflexivity.
Defined.

(** X5.  Every result carries exactly the 25 statistics of [metrics]: each
    of them is present and no other key is, whichever fitter ran and
    whether or not a traffic level was given. *)
Theorem predicted_statistics_present benchmarks request result :
  predictPerformance benchmarks request = Some result →
  ∀ k, is_Some (predictions result !! k) ↔ k ∈ metrics.
Proof.
  intros Hresult k.
  destruct (predictPerformance_predictions _ _ _ Hresult) as [-> | [type ->]].
  - apply performSimpleAveraging_keys.
  - rewrite interpolation_routine_eq. apply interpolate_keys.
Qed.

Lemma predicted_statistics_present_example :
  let benchmarks := [row 100 50 None []; row 200 50 None []] in
  let request := request 200 50 None (Some linear) in
  ∃ result,
    predictPerformance benchmarks request = Some result
    ∧ is_Some (predictions result !! "e2e_mean")
    ∧ ¬ is_Some (predictions result !! "input_avg_len").
Proof.
  intros benchmarks request.
  assert (∃ result, predictPerformance benchmarks request = Some result)
    as [result Hresult] by (eexists; reflexivity).
  exists result. split; [exact Hresult |].
  pose proof (predicted_statistics_present benchmarks request result Hresult)
    as Hkeys.
  split.
  - apply Hkeys. apply list_elem_of_In. simpl. tauto.
  - intros Hin%Hkeys. apply list_elem_of_In in Hin. simpl in Hin.
    repeat (destruct Hin as [Hin | Hin]; [discriminate |]). exact Hin.
Defined.

(** X6.  [hasVariation] holds exactly when two benchmarks differ in rounded
    input or rounded output tokens, and fails exactly when all benchmarks
    share both rounded values: the sizes of the two [Set]s say no more. *)
Theorem hasVariation_spec benchmarks :
  (hasVariation benchmarks = true ↔ rounded_tokens_vary benchmarks)
  ∧ (hasVariation benchmarks = false ↔ rounded_tokens_constant benchmarks).
Proof. split; [apply hasVariation_true | apply hasVariation_false]. Qed.

(** ** The confidence scorer *)

(** X7.  On a non-empty set of benchmarks the scorer never rates a target
    inside the observed envelope low and never rates a target outside it
    high; every target is inside or outside, and not both. *)
Theorem confidence_respects_envelope benchmarks
    (targetInput targetOutput : Q) :
  benchmarks ≠ [] →
  (inside_envelope benchmarks targetInput targetOutput →
   calculateConfidence benchmarks targetInput targetOutput ≠ low)
  ∧ (outside_envelope benchmarks targetInput targetOutput →
     calculateConfidence benchmarks targetInput targetOutput ≠ high)
  ∧ (isExtrapolating benchmarks targetInput targetOutput = false ↔
     inside_envelope benchmarks targetInput targetOutput)
  ∧ (isExtrapolating benchmarks targetInput targetOutput = true ↔
     outside_envelope benchmarks targetInput targetOutput).
Proof.
  intros Hne.
  assert (isExtrapolating benchmarks targetInput targetOutput = false ↔
          inside_envelope benchmarks targetInput targetOutput) as Hinside.
  { split; [by apply isExtrapolating_false_inside
           | apply isExtrapolating_inside]. }
  assert (isExtrapolating benchmarks targetInput targetOutput = true ↔
          outside_envelope benchmarks targetInput targetOutput) as Houtside.
  { split; [| by apply isExtrapolating_outside].
    intros Hext.
    assert (input_avg_len <$> benchmarks ≠ []) as Hi
      by (by destruct benchmarks).
    assert (output_avg_len <$> benchmarks ≠ []) as Ho
      by (by destruct benchmarks).
    unfold isExtrapolating in Hext.
    rewrite !orb_true_iff, !bool_decide_eq_true in Hext.
    destruct Hext as [[[H | H] | H] | H]; [left | right; left
      | right; right; left | right; right; right]; intros b Hb.
    - eapply Qlt_le_trans; [exact H |].
      apply min_of_le, list_elem_of_fmap; eauto.
    - eapply Qle_lt_trans; [| exact H].
      apply max_of_ge, list_elem_of_fmap; eauto.
    - eapply Qlt_le_trans; [exact H |].
      apply min_of_le, list_elem_of_fmap; eauto.
    - eapply Qle_lt_trans; [| exact H].
      apply max_of_ge, list_elem_of_fmap; eauto. }
  split; [| split; [| split; [exact Hinside | exact Houtside]]].
  - intros Hin%Hinside. unfold calculateConfidence. rewrite Hin.
    destruct (dist_ltb _ 0.1); cbn; [done |]. by rewrite orb_true_r.
  - intros Hout%Houtside. unfold calculateConfidence. rewrite Hout.
    rewrite andb_false_r. by destruct (_ || _).
Qed.

Lemma confidence_respects_envelope_three_rows :
  let benchmarks :=
    [row 0 0 None []; row 1 0 None []; row 0 1 None []] in
  benchmarks ≠ []
  ∧ calculateConfidence benchmarks 0.5 0.5 ≠ low
  ∧ calculateConfidence benchmarks 1.1 0 ≠ high.
Proof.
  intros benchmarks.
  assert (benchmarks ≠ []) as Hne by discriminate.
  split; [exact Hne |].
  assert (∀ b, In b benchmarks → b ∈ benchmarks) as Hin
    by (intros b; apply list_elem_of_In).
  split.
  - apply (proj1 (confidence_respects_envelope benchmarks 0.5 0.5 Hne)).
    repeat split.
    + exists (row 0 0 None []). split; [apply Hin; simpl; tauto | discriminate].
    + exists (row 1 0 None []). split; [apply Hin; simpl; tauto | discriminate].
    + exists (row 0 0 None []). split; [apply Hin; simpl; tauto | discriminate].
    + exists (row 0 1 None []). split; [apply Hin; simpl; tauto | discriminate].
  - apply (proj1 (proj2 (confidence_respects_envelope benchmarks 1.1 0 Hne))).
    right. left. intros b Hb. apply list_elem_of_In in Hb. simpl in Hb.
    destruct Hb as [<- | [<- | [<- | []]]]; reflexivity.
Defined.



(** ** Linearity detection *)




(** X11.  When the [ttft_mean] of at least 3 benchmarks with rounded
    variation lies exactly on a plane [a + b * input + c * output] and the
    determinant passes the guard of the linear fitter, the linear fit has
    R² = 1 whenever [ttft_mean] has spread, [detectLinearity] answers
    linear and auto-detection reports [auto_linear]. *)
Theorem planar_ttft_detects_linear (a b c : Q) benchmarks request :
  (3 ≤ length benchmarks)%nat →
  rounded_tokens_vary benchmarks →
  on_plane a b c benchmarks "ttft_mean" →
  1e-10 < Qabs (linear_denom benchmarks "ttft_mean") →
  requests_auto_detect request →
  (Qeq_bool (total_sum_of_squares benchmarks "ttft_mean") 0 = false →
   calculateR2 benchmarks "ttft_mean" fit_linear == 1)
  ∧ detectLinearity benchmarks = true
  ∧ ∃ result,
      predictPerformance benchmarks request = Some result
      ∧ interpolation_method result = "auto_linear".
Proof.
  intros Hlen Hvary Hplane Hdet Hauto.
  pose proof (detectLinearity_on_plane benchmarks a b c Hplane Hdet) as Hlin.
  split; [| split; [done |]].
  - intros Hspread.
    destruct (fitLinearModel_on_plane benchmarks "ttft_mean" a b c Hplane
                Hdet) as (Ha & Hb & Hc).
    apply calculateR2_linear_perfect; [lia | done |].
    intros d Hd. unfold eval_linear. rewrite Ha, Hb, Hc.
    symmetry. by apply Hplane.
  - apply hasVariation_vary in Hvary.
    unfold predictPerformance, effectiveMethod, predictAutoDetect.
    rewrite decide_False by (destruct benchmarks; simpl in *; [lia | done]).
    rewrite Hvary, Hlin.
    rewrite (bool_decide_eq_false_2 (length benchmarks = 1%nat)) by lia.
    rewrite (bool_decide_eq_false_2 (length benchmarks < 3)%nat) by lia.
    unfold requests_auto_detect in Hauto. rewrite Hauto. cbn.
    rewrite decide_False by lia. eexists. split; reflexivity.
Qed.

Lemma planar_ttft_detects_linear_three_points :
  let benchmarks :=
    [row 0 0 None [("ttft_mean", 5)];
     row 1 0 None [("ttft_mean", 7)];
     row 0 1 None [("ttft_mean", 8)]] in
  let request := request 2 2 None (Some auto_detect) in
  (3 ≤ length benchmarks)%nat
  ∧ rounded_tokens_vary benchmarks
  ∧ on_plane 5 2 3 benchmarks "ttft_mean"
  ∧ 1e-10 < Qabs (linear_denom benchmarks "ttft_mean")
  ∧ requests_auto_detect request
  ∧ detectLinearity benchmarks = true
  ∧ ∃ result,
      predictPerformance benchmarks request = Some result
      ∧ interpolation_method result = "auto_linear".
Proof.
  intros benchmarks request.
  assert (3 ≤ length benchmarks)%nat as Hlen by (simpl; lia).
  assert (rounded_tokens_vary benchmarks) as Hvary.
  { exists (row 0 0 None [("ttft_mean", 5)]), (row 1 0 None [("ttft_mean", 7)]).
    split; [apply list_elem_of_In; simpl; tauto |].
    split; [apply list_elem_of_In; simpl; tauto |].
    left. discriminate. }
  assert (on_plane 5 2 3 benchmarks "ttft_mean") as Hplane.
  { intros p Hp. apply list_elem_of_In in Hp. simpl in Hp.
    destruct Hp as [<- | [<- | [<- | []]]]; reflexivity. }
  assert (1e-10 < Qabs (linear_denom benchmarks "ttft_mean")) as Hdet
    by reflexivity.
  assert (requests_auto_detect request) as Hauto by reflexivity.
  split; [exact Hlen |]. split; [exact Hvary |]. split; [exact Hplane |].
  split; [exact Hdet |]. split; [exact Hauto |].
  exact (proj2 (planar_ttft_detects_linear 5 2 3 benchmarks request Hlen
                  Hvary Hplane Hdet Hauto)).
Defined.

(** ** The two-feature linear fitter *)



(** X13.  Whatever branch it takes, the plane fitted on a non-empty data
    set passes through the mean point: at the mean input and mean output
    it predicts the mean of the statistic. *)
Theorem linear_fit_through_mean_point data (metric : string) :
  data ≠ [] →
  eval_linear (fitLinearModel data metric)
    (arithmetic_mean (input_avg_len <$> data))
    (arithmetic_mean (output_avg_len <$> data))
  == arithmetic_mean ((λ p, metric_value p metric) <$> data).
Proof.
  intros _.
  destruct (linear_means data metric) as (H1 & H2 & H3).
  unfold eval_linear. rewrite fitLinearModel_intercept.
  rewrite <- H1, <- H2, <- H3. ring.
Qed.

Lemma linear_fit_through_mean_point_collinear :
  let data :=
    [row 0 0 None [("ttft_mean", 5)]; row 1 1 None [("ttft_mean", 10)]] in
  data ≠ []
  ∧ eval_linear (fitLinearModel data "ttft_mean")
      (arithmetic_mean (input_avg_len <$> data))
      (arithmetic_mean (output_avg_len <$> data))
    == 7.5.
Proof.
  intros data.
  assert (data ≠ []) as Hne by discriminate.
  split; [exact Hne |].
  rewrite (linear_fit_through_mean_point data "ttft_mean" Hne).
  reflexivity.
Defined.





(** ** The Gauss-Seidel solver *)


(** X17.  The coefficients [solvePolynomial] returns satisfy the last
    normal equation exactly whenever its diagonal entry passes the guard:
    the last update of the last sweep solves that row, and nothing is
    changed after it. *)
Theorem solvePolynomial_last_equation (X : list (list Q)) (y : list Q) :
  let m := length (default [] (X !! 0%nat)) in
  (0 < m)%nat →
  1e-10 < Qabs (XtX_entry X (m - 1) (m - 1)) →
  sum_of ((λ j, XtX_entry X (m - 1) j * at_index (solvePolynomial X y) j)
          <$> seq 0 m)
  == Xty_entry X y (m - 1).
Proof.
  intros m Hm Hdiag. unfold solvePolynomial. cbv zeta. fold m.
  set (XtX := (λ i, (λ j, XtX_entry X i j) <$> seq 0 m) <$> seq 0 m).
  set (Xty := (λ i, Xty_entry X y i) <$> seq 0 m).
  change (seq 0 100) with (seq 0 99 ++ [99%nat]).
  rewrite foldl_app. cbn [foldl].
  set (state := foldl _ (replicate m 0) (seq 0 99)).
  assert (length state = m) as Hstate
    by (subst state; by rewrite length_sweeps, length_replicate).
  assert (seq 0 m = seq 0 (m - 1) ++ [(m - 1)%nat]) as Hseq.
  { replace m with (S (m - 1)) at 1 by lia. by rewrite seq_S. }
  assert (foldl (gauss_seidel_update XtX Xty m) state (seq 0 m)
          = gauss_seidel_update XtX Xty m
              (foldl (gauss_seidel_update XtX Xty m) state (seq 0 (m - 1)))
              (m - 1)) as ->
    by (by rewrite Hseq, foldl_app).
  set (before := foldl (gauss_seidel_update XtX Xty m) state (seq 0 (m - 1))).
  assert (length before = m) as Hbefore
    by (subst before; by rewrite length_sweep).
  rewrite (sum_of_fmap_ext_in _
             (λ j, entry XtX (m - 1) j
                   * at_index
                       (gauss_seidel_update XtX Xty m before (m - 1)) j)).
  - rewrite gauss_seidel_update_row; [| lia | done |].
    + subst Xty. by rewrite at_index_normal_vector by lia.
    + subst XtX. by rewrite entry_normal_matrix by lia.
  - intros j Hj%elem_of_seq. subst XtX.
    by rewrite entry_normal_matrix by lia.
Qed.

Lemma solvePolynomial_last_equation_one_row :
  let X : list (list Q) := [[1; 1; 1; 1]] in
  let y : list Q := [7] in
  (0 < length (default [] (X !! 0%nat)))%nat
  ∧ 1e-10 < Qabs (XtX_entry X 3 3)
  ∧ sum_of ((λ j, XtX_entry X 3 j * at_index (solvePolynomial X y) j)
            <$> seq 0 4)
    == Xty_entry X y 3.
Proof.
  intros X y.
  assert (0 < length (default [] (X !! 0%nat)))%nat as Hm by (simpl; lia).
  assert (1e-10 < Qabs (XtX_entry X 3 3)) as Hdiag by reflexivity.
  split; [exact Hm |]. split; [exact Hdiag |].
  exact (solvePolynomial_last_equation X y Hm Hdiag).
Defined.

(** ** Statistics without data *)

(** X18.  A statistic other than [e2e_mean] that is 0 or missing in every
    benchmark is predicted as 0 by every fitter, for every target and
    traffic level. *)
Theorem missing_statistic_predicts_zero benchmarks request result
    (metric : string) :
  predictPerformance benchmarks request = Some result →
  metric ∈ metrics → metric ≠ "e2e_mean" →
  zero_column benchmarks metric →
  ∃ v, predictions result !! metric = Some (Fin v) ∧ v == 0.
Proof.
  intros Hresult Hin Hne Hzero.
  destruct (predictPerformance_predictions _ _ _ Hresult) as [-> | [type ->]].
  - eexists. split; [by apply lookup_performSimpleAveraging |].
    by apply simple_average_zero_column.
  - destruct (regressed_value_zero_column benchmarks metric Hzero type
                (req_input_tokens request) (req_output_tokens request)
                (req_traffic_level request)) as (v & Hv & Hv0).
    exists v. split; [| done].
    rewrite interpolation_routine_eq.
    destruct (req_traffic_level request) as [traffic |].
    + by rewrite lookup_interpolate_3D, decide_True, Hv.
    + by rewrite lookup_interpolate_2D, decide_True, Hv.
Qed.

Lemma missing_statistic_predicts_zero_two_rows :
  let benchmarks :=
    [row 100 50 None [("ttft_mean", 90)];
     row 200 50 None [("ttft_mean", 150)]] in
  let request := request 150 50 None (Some linear) in
  ∃ result,
    predictPerformance benchmarks request = Some result
    ∧ "user_tps_p99" ∈ metrics
    ∧ "user_tps_p99" ≠ "e2e_mean"
    ∧ zero_column benchmarks "user_tps_p99"
    ∧ ∃ v, predictions result !! "user_tps_p99" = Some (Fin v) ∧ v == 0.
Proof.
  intros benchmarks request.
  assert (∃ result, predictPerformance benchmarks request = Some result)
    as [result Hresult] by (eexists; reflexivity).
  assert ("user_tps_p99" ∈ metrics) as Hin
    by (apply list_elem_of_In; simpl; tauto).
  assert ("user_tps_p99" ≠ "e2e_mean") as Hne by discriminate.
  assert (zero_column benchmarks "user_tps_p99") as Hzero.
  { intros p Hp. apply list_elem_of_In in Hp. simpl in Hp.
    destruct Hp as [<- | [<- | []]]; reflexivity. }
  exists result. split; [exact Hresult |]. split; [exact Hin |].
  split; [exact Hne |]. split; [exact Hzero |].
  exact (missing_statistic_predicts_zero benchmarks request result
           "user_tps_p99" Hresult Hin Hne Hzero).
Defined.

(** X19.  The mechanistic deriver changes no entry of the predictions but
    [e2e_mean], always writes [e2e_mean], and what it writes is a finite
    number exactly when [ttft_mean] is one: its safety check replaces the
    generation time only, so a missing or [NaN] [ttft_mean] gives the mean
    [NaN]. *)
Theorem deriver_writes_e2e_mean_only (predictions : gmap string num)
    (outputTokens : Q) :
  let result := calculateE2EMeanMechanistically predictions outputTokens in
  (∀ k : string, k ≠ "e2e_mean" → result !! k = predictions !! k)
  ∧ is_Some (result !! "e2e_mean")
  ∧ isFinite (toNumber (result !! "e2e_mean"))
    = isFinite (toNumber (predictions !! "ttft_mean"))
  ∧ (toNumber (predictions !! "ttft_mean") = NaN →
     result !! "e2e_mean" = Some NaN).
Proof.
  intros result. subst result. split; [| split; [| split]].
  - intros k Hk. by apply lookup_mechanistic_ne.
  - apply mechanistic_e2e_is_Some.
  - apply mechanistic_finiteness.
  - apply mechanistic_nan.
Qed.



(** X21.  Without a target traffic level the regression routines read the
    benchmarks' token counts and their statistics other than [e2e_mean]
    only: two benchmark lists that agree row by row on these give the same
    predictions, whatever their [e2e_mean] columns and traffic levels. *)
Theorem two_feature_routine_ignores_e2e_mean (type : FitType)
    (data data' : list BenchmarkRow) (targetInput targetOutput : Q) :
  Forall2 same_for_two_features data data' →
  interpolation_routine type data targetInput targetOutput None
  = interpolation_routine type data' targetInput targetOutput None.
Proof.
  intros Hrel. rewrite !interpolation_routine_eq.
  apply interpolate_2D_ext. intros k Hk.
  destruct type; cbn [regressed_value linear_prediction
                        polynomial_prediction].
  - by rewrite (fitLinearModel_same data data' k Hrel Hk).
  - by rewrite (fitPolynomialModel_same data data' k Hrel Hk).
Qed.

Lemma two_feature_routine_ignores_e2e_mean_two_rows :
  let data :=
    [row 100 50 None [("e2e_mean", 500); ("ttft_mean", 90)];
     row 200 50 None [("e2e_mean", 700); ("ttft_mean", 150)]] in
  let data' :=
    [row 100 50 (Some 4) [("e2e_mean", 900); ("ttft_mean", 90)];
     row 200 50 (Some 8) [("ttft_mean", 150)]] in
  Forall2 same_for_two_features data data'
  ∧ interpolation_routine fit_polynomial data 150 50 None
    = interpolation_routine fit_polynomial data' 150 50 None.
Proof.
  intros data data'.
  assert (Forall2 same_for_two_features data data') as Hrel.
  { constructor; [| constructor; [| constructor]];
      (split; [reflexivity | split; [reflexivity |]]);
      intros metric Hne; cbn;
      rewrite !(lookup_insert_ne _ "e2e_mean") by congruence; reflexivity. }
  split; [exact Hrel |].
  exact (two_feature_routine_ignores_e2e_mean fit_polynomial data data'
           150 50 Hrel).
Defined.
